(** * The library-checkout manager of TestingFile.py

    A shallow embedding of [LibrarySystem] and [LibraryDatabase] and the
    properties of the checkout engine: status transitions, the reservation
    queue, fines, payments and the save/load cycle.

    Conventions of the embedding.
    - A Python [float] is an IEEE-754 binary64 value: [spec_float] with the
      operations of [SpecFloat] at precision 53.
    - A naive [datetime] is the number of microseconds since 0001-01-01, a
      [timedelta] a number of microseconds; the year-9999 bound of the Python
      type is not modelled.
    - The dictionaries [users] and [items] are finite maps keyed by id; the
      objects they hold are records, updated in place at their key.
    - [uuid.uuid4()] and [datetime.now()] are inputs of the operation that
      calls them.
    - An operation returns the new database or the exception it raises.
    - Every mutating operation of [LibrarySystem] ends with [save_data] and
      [Logger.log]. Both only write files: the data file then holds
      [LibraryDatabase.save_data] of the database the operation returns, and
      the log file is read by nothing. The operations below return the
      database; the data file is modelled with [LibraryDatabase].
    - The data file is the JSON document it holds: [json.dump] followed by
      [json.load] gives the document back.
    - [datetime.isoformat] and [datetime.fromisoformat] are parameters of
      the functions that call them. *)

From Stdlib Require Import ZArith Lia List SpecFloat.
From Stdlib Require DecimalString DecimalZ.
From stdpp Require Import base option list strings gmap fin_maps.

Local Open Scope Z_scope.
Local Set Warnings "-register-all".

(** ** Python values *)

Module Float.
Definition prec : Z := 53.
Definition emax : Z := 1024.

Abbreviation float := spec_float.

Definition add : float -> float -> float := SFadd prec emax.
Definition sub : float -> float -> float := SFsub prec emax.
Definition mul : float -> float -> float := SFmul prec emax.

(** [x > y], [x < y], [x <= y] and [x == y] of Python. *)
Definition gtb (x y : float) : bool := SFltb y x.
Definition ltb (x y : float) : bool := SFltb x y.
Definition leb (x y : float) : bool := SFleb x y.
Definition eqb (x y : float) : bool := SFeqb x y.

(** The conversion of an [int] operand in [int * float]: to the nearest
    float, ties to even. Python raises [OverflowError] for an [int] beyond
    the range of floats, which no count of days reaches. *)
Definition of_int (z : Z) : float := binary_normalize prec emax z 0 false.

(** A value that is a number: neither an infinity nor NaN. *)
Definition is_finite (x : float) : bool :=
  match x with
  | S754_zero _ | S754_finite _ _ _ => true
  | S754_infinity _ | S754_nan => false
  end.

Definition zero : float := S754_zero false.
(** The literals [0.50], [1.00] and [0.25]. *)
Definition half : float := Eval vm_compute in binary_normalize prec emax 1 (-1) false.
Definition one : float := Eval vm_compute in binary_normalize prec emax 1 0 false.
Definition quarter : float := Eval vm_compute in binary_normalize prec emax 1 (-2) false.
End Float.

Abbreviation float := spec_float.
Abbreviation datetime := Z (only parsing).
Abbreviation timedelta := Z (only parsing).

Module Timedelta.
Definition microseconds_per_day : Z := 86400000000.
(** [timedelta(days=n)] *)
Definition of_days (n : Z) : timedelta := n * microseconds_per_day.
(** The [.days] attribute: a timedelta is kept normalised with
    [0 <= seconds < 86400], so [days] is the floor. *)
Definition days (d : timedelta) : Z := d / microseconds_per_day.
End Timedelta.

(** [l.remove(x)]: drops the first occurrence, [ValueError] ([None]) when there
    is none. *)
Fixpoint list_remove (x : string) (l : list string) : option (list string) :=
  match l with
  | [] => None
  | y :: l' => if decide (y = x) then Some l' else cons y <$> list_remove x l'
  end.

(** ** Enumerations and exceptions *)

Inductive ItemStatus := AVAILABLE | CHECKED_OUT | RESERVED | MAINTENANCE | LOST.

Inductive UserRole := STUDENT | FACULTY | LIBRARIAN | ADMIN.

#[global] Instance ItemStatus_eq_dec : EqDecision ItemStatus.
Proof. solve_decision. Defined.

#[global] Instance UserRole_eq_dec : EqDecision UserRole.
Proof. solve_decision. Defined.

Definition ItemStatus_value (s : ItemStatus) : string :=
  match s with
  | AVAILABLE => "available"
  | CHECKED_OUT => "checked_out"
  | RESERVED => "reserved"
  | MAINTENANCE => "maintenance"
  | LOST => "lost"
  end.

Definition UserRole_value (r : UserRole) : string :=
  match r with
  | STUDENT => "student"
  | FACULTY => "faculty"
  | LIBRARIAN => "librarian"
  | ADMIN => "admin"
  end.

(** The exception classes an operation can raise: the three of the module,
    of which [LibraryException] is the base class, and the built-in ones. *)
Inductive exn_class :=
  | LibraryException
  | ItemNotAvailableException
  | UserNotFoundException
  | ValueError
  | KeyError
  | TypeError
  | AttributeError
  | UnboundLocalError.

#[global] Instance exn_class_eq_dec : EqDecision exn_class.
Proof. solve_decision. Defined.

(** The bases of a class, for [isinstance] and [except]. *)
Definition subclass_of (c base : exn_class) : bool :=
  match c, base with
  | LibraryException, LibraryException
  | ItemNotAvailableException, (ItemNotAvailableException | LibraryException)
  | UserNotFoundException, (UserNotFoundException | LibraryException)
  | ValueError, ValueError
  | KeyError, KeyError
  | TypeError, TypeError
  | AttributeError, AttributeError
  | UnboundLocalError, UnboundLocalError => true
  | _, _ => false
  end.

Record exception := Exn { exn_cls : exn_class; exn_msg : string }.

(** The outcome of a call. [Unmodelled] marks a document that leaves the
    fragment of Python the records describe: one that gives a field another
    JSON type than the annotation of the attribute it is loaded into (Python
    stores such a value unchecked), or one that makes [load_data] store one
    object under two keys. [save_data] writes no such document. *)
Inductive outcome (A : Type) :=
  | Ok (a : A)
  | Raise (e : exception)
  | Unmodelled.
Arguments Ok {A} a.
Arguments Raise {A} e.
Arguments Unmodelled {A}.

Definition bind {A B : Type} (m : outcome A) (k : A -> outcome B) : outcome B :=
  match m with
  | Ok a => k a
  | Raise e => Raise e
  | Unmodelled => Unmodelled
  end.

Notation "x <- m ;; k" := (bind m (fun x => k))
  (at level 100, m at next level, right associativity).

Definition raise {A : Type} (c : exn_class) (msg : string) : outcome A :=
  Raise (Exn c msg).

(** ** JSON documents *)

(** What [json.load] returns and [json.dump] accepts. An object is a Python
    [dict]: a list of bindings in insertion order with distinct keys. *)
Inductive json :=
  | JNull
  | JBool (b : bool)
  | JInt (z : Z)
  | JFloat (f : float)
  | JStr (s : string)
  | JList (l : list json)
  | JDict (d : list (string * json)).

Module Dict.
Abbreviation t := (list (string * json)).

Fixpoint get (k : string) (d : t) : option json :=
  match d with
  | [] => None
  | (k', v) :: d' => if String.eqb k' k then Some v else get k d'
  end.

(** [d[k] = v]: replaces the value of an existing key, else appends. *)
Fixpoint set (k : string) (v : json) (d : t) : t :=
  match d with
  | [] => [(k, v)]
  | (k', v') :: d' => if String.eqb k' k then (k, v) :: d' else (k', v') :: set k v d'
  end.

(** [d.update(e)] *)
Definition update (d e : t) : t := foldl (fun d kv => set kv.1 kv.2 d) d e.

(** [d[k]], [KeyError] when the key is missing. *)
Definition getitem (k : string) (d : t) : outcome json :=
  match get k d with
  | Some v => Ok v
  | None => raise KeyError k
  end.
End Dict.

(** Truth value of a loaded JSON value. *)
Definition truthy (j : json) : bool :=
  match j with
  | JNull => false
  | JBool b => b
  | JInt z => negb (z =? 0)
  | JFloat f => negb (Float.eqb f Float.zero)
  | JStr s => negb (bool_decide (s = ""))
  | JList l => negb (bool_decide (l = []))
  | JDict d => negb (bool_decide (d = []))
  end.

(** Readers for the annotated types of the attributes. *)
Definition as_str (j : json) : outcome string :=
  match j with JStr s => Ok s | _ => Unmodelled end.

Definition as_int (j : json) : outcome Z :=
  match j with JInt z => Ok z | _ => Unmodelled end.

Definition as_float (j : json) : outcome float :=
  match j with JFloat f => Ok f | _ => Unmodelled end.

Definition as_opt_str (j : json) : outcome (option string) :=
  match j with JNull => Ok None | JStr s => Ok (Some s) | _ => Unmodelled end.

Fixpoint as_str_list_aux (l : list json) : outcome (list string) :=
  match l with
  | [] => Ok []
  | j :: l' => s <- as_str j ;; r <- as_str_list_aux l' ;; Ok (s :: r)
  end.

Definition as_str_list (j : json) : outcome (list string) :=
  match j with JList l => as_str_list_aux l | _ => Unmodelled end.

(** [j[k]] for a string [k]: only a [dict] can be subscripted by one. *)
Definition subscript (k : string) (j : json) : outcome json :=
  match j with
  | JDict d => Dict.getitem k d
  | _ => raise TypeError "subscript is not a dict key"
  end.

(** The elements a [for] loop visits: the items of a list, the keys of a
    dict, the characters of a string. *)
Definition iterate (j : json) : outcome (list json) :=
  match j with
  | JList l => Ok l
  | JDict d => Ok (JStr <$> d.*1)
  | JStr s => Ok ((fun c => JStr (String c "")) <$> String.list_ascii_of_string s)
  | _ => raise TypeError "object is not iterable"
  end.

(** [UserRole(v)] and [ItemStatus(v)]: lookup of an enumeration member by
    value, [ValueError] when no member has it. *)
Definition UserRole_of_value (j : json) : outcome UserRole :=
  match j with
  | JStr "student" => Ok STUDENT
  | JStr "faculty" => Ok FACULTY
  | JStr "librarian" => Ok LIBRARIAN
  | JStr "admin" => Ok ADMIN
  | _ => raise ValueError "not a valid UserRole"
  end.

Definition ItemStatus_of_value (j : json) : outcome ItemStatus :=
  match j with
  | JStr "available" => Ok AVAILABLE
  | JStr "checked_out" => Ok CHECKED_OUT
  | JStr "reserved" => Ok RESERVED
  | JStr "maintenance" => Ok MAINTENANCE
  | JStr "lost" => Ok LOST
  | _ => raise ValueError "not a valid ItemStatus"
  end.

(** ** Entities *)

Module LibraryUser.
(** [Person] and [LibraryUser], flattened. *)
Record t := mk {
  name : string;
  email : string;
  phone : string;
  id : string;
  role : UserRole;
  borrowed_items : list string;
  reserved_items : list string;
  fines : float
}.

(** [LibraryUser(name, email, phone, role)], with the fresh uuid. *)
Definition init (uuid name email phone : string) (role : UserRole) : t :=
  mk name email phone uuid role [] [] Float.zero.

(** [Person.to_dict] and the override of [LibraryUser]. *)
Definition Person_to_dict (u : t) : Dict.t :=
  [("id", JStr (id u)); ("name", JStr (name u)); ("email", JStr (email u));
   ("phone", JStr (phone u))].

Definition to_dict (u : t) : Dict.t :=
  Dict.update (Person_to_dict u)
    [("role", JStr (UserRole_value (role u)));
     ("borrowed_items", JList (JStr <$> borrowed_items u));
     ("reserved_items", JList (JStr <$> reserved_items u));
     ("fines", JFloat (fines u))].

Definition set_borrowed_items (l : list string) (u : t) : t :=
  mk (name u) (email u) (phone u) (id u) (role u) l (reserved_items u) (fines u).
Definition set_reserved_items (l : list string) (u : t) : t :=
  mk (name u) (email u) (phone u) (id u) (role u) (borrowed_items u) l (fines u).
Definition set_fines (f : float) (u : t) : t :=
  mk (name u) (email u) (phone u) (id u) (role u) (borrowed_items u)
     (reserved_items u) f.
End LibraryUser.

(** The subclass of an item with the attributes its constructor adds. *)
Inductive ItemKind :=
  | Book (author isbn publisher : string) (publication_year : Z) (edition : string)
  | DVD (director : string) (runtime release_year : Z)
  | Magazine (publisher issue_number : string) (publication_date : datetime).

Module LibraryItem.
Record t := mk {
  id : string;
  title : string;
  location : string;
  cost : float;
  status : ItemStatus;
  checked_out_to : option string;
  due_date : option datetime;
  reserved_by : list string;
  kind : ItemKind
}.

(** [LibraryItem.__init__] followed by the subclass constructor. *)
Definition init (uuid title location : string) (cost : float) (k : ItemKind) : t :=
  mk uuid title location cost AVAILABLE None None [] k.

Definition get_checkout_duration (i : t) : timedelta :=
  match kind i with
  | Book _ _ _ _ _ => Timedelta.of_days 21
  | DVD _ _ _ => Timedelta.of_days 7
  | Magazine _ _ _ => Timedelta.of_days 14
  end.

Definition get_daily_fine (i : t) : float :=
  match kind i with
  | Book _ _ _ _ _ => Float.half
  | DVD _ _ _ => Float.one
  | Magazine _ _ _ => Float.quarter
  end.

(** [self.__class__.__name__] *)
Definition class_name (i : t) : string :=
  match kind i with
  | Book _ _ _ _ _ => "Book"
  | DVD _ _ _ => "DVD"
  | Magazine _ _ _ => "Magazine"
  end.

Section to_dict.
(** [datetime.isoformat] *)
Variable isoformat : datetime -> string.

(** [LibraryItem.to_dict]; a [datetime] is always true, so the test on
    [due_date] is a test for [None]. *)
Definition base_to_dict (i : t) : Dict.t :=
  [("id", JStr (id i)); ("title", JStr (title i));
   ("location", JStr (location i)); ("cost", JFloat (cost i));
   ("status", JStr (ItemStatus_value (status i)));
   ("checked_out_to", from_option JStr JNull (checked_out_to i));
   ("due_date", from_option (fun d => JStr (isoformat d)) JNull (due_date i));
   ("reserved_by", JList (JStr <$> reserved_by i));
   ("type", JStr (class_name i))].

(** The overrides of [Book], [DVD] and [Magazine]. *)
Definition to_dict (i : t) : Dict.t :=
  Dict.update (base_to_dict i)
    match kind i with
    | Book author isbn publisher publication_year edition =>
        [("author", JStr author); ("isbn", JStr isbn);
         ("publisher", JStr publisher);
         ("publication_year", JInt publication_year);
         ("edition", JStr edition)]
    | DVD director runtime release_year =>
        [("director", JStr director); ("runtime", JInt runtime);
         ("release_year", JInt release_year)]
    | Magazine publisher issue_number publication_date =>
        [("publisher", JStr publisher); ("issue_number", JStr issue_number);
         ("publication_date", JStr (isoformat publication_date))]
    end.
End to_dict.

Definition set_status (s : ItemStatus) (i : t) : t :=
  mk (id i) (title i) (location i) (cost i) s (checked_out_to i) (due_date i)
     (reserved_by i) (kind i).
Definition set_checked_out_to (c : option string) (i : t) : t :=
  mk (id i) (title i) (location i) (cost i) (status i) c (due_date i)
     (reserved_by i) (kind i).
Definition set_due_date (d : option datetime) (i : t) : t :=
  mk (id i) (title i) (location i) (cost i) (status i) (checked_out_to i) d
     (reserved_by i) (kind i).
Definition set_reserved_by (l : list string) (i : t) : t :=
  mk (id i) (title i) (location i) (cost i) (status i) (checked_out_to i)
     (due_date i) l (kind i).
End LibraryItem.

(** ** Persistence *)

Module LibraryDatabase.
Record t := mk {
  users : gmap string LibraryUser.t;
  items : gmap string LibraryItem.t
}.

Section persistence.
(** [datetime.isoformat] and [datetime.fromisoformat]; the latter raises
    [ValueError] ([None]) on a string it cannot read. *)
Variable isoformat : datetime -> string.
Variable fromisoformat : string -> option datetime.

(** The document [save_data] dumps into the data file. The records are
    listed in the order of [map_to_list]. *)
Definition save_data (db : t) : json :=
  JDict
    [("users", JList ((fun u => JDict (LibraryUser.to_dict u)) <$> (map_to_list (users db)).*2));
     ("items", JList ((fun i => JDict (LibraryItem.to_dict isoformat i)) <$> (map_to_list (items db)).*2))].

Definition parse_datetime (j : json) : outcome datetime :=
  match j with
  | JStr s =>
      match fromisoformat s with
      | Some d => Ok d
      | None => raise ValueError "Invalid isoformat string"
      end
  | _ => raise TypeError "fromisoformat: argument must be str"
  end.

(** One round of the loop over [data.get('users', [])]. The uuid the
    constructor draws is overwritten by the stored id. *)
Definition load_user (user_data : json) : outcome LibraryUser.t :=
  name <- (j <- subscript "name" user_data ;; as_str j) ;;
  email <- (j <- subscript "email" user_data ;; as_str j) ;;
  phone <- (j <- subscript "phone" user_data ;; as_str j) ;;
  role <- (j <- subscript "role" user_data ;; UserRole_of_value j) ;;
  id <- (j <- subscript "id" user_data ;; as_str j) ;;
  borrowed_items <- (j <- subscript "borrowed_items" user_data ;; as_str_list j) ;;
  reserved_items <- (j <- subscript "reserved_items" user_data ;; as_str_list j) ;;
  fines <- (j <- subscript "fines" user_data ;; as_float j) ;;
  Ok (LibraryUser.mk name email phone id role borrowed_items reserved_items fines).

Fixpoint load_users (l : list json) (users : gmap string LibraryUser.t)
  : outcome (gmap string LibraryUser.t) :=
  match l with
  | [] => Ok users
  | user_data :: l' =>
      user <- load_user user_data ;;
      load_users l' (<[LibraryUser.id user := user]> users)
  end.

(** The constructor call of the branch that matches [item_data['type']]:
    the title, location, cost and subclass attributes, or [None] when no
    branch matches and [item] is left as it was. *)
Definition load_item_new (item_data : json)
  : outcome (option (string * string * float * ItemKind)) :=
  ty <- subscript "type" item_data ;;
  match ty with
  | JStr "Book" =>
      title <- (j <- subscript "title" item_data ;; as_str j) ;;
      author <- (j <- subscript "author" item_data ;; as_str j) ;;
      isbn <- (j <- subscript "isbn" item_data ;; as_str j) ;;
      location <- (j <- subscript "location" item_data ;; as_str j) ;;
      cost <- (j <- subscript "cost" item_data ;; as_float j) ;;
      publisher <- (j <- subscript "publisher" item_data ;; as_str j) ;;
      publication_year <- (j <- subscript "publication_year" item_data ;; as_int j) ;;
      edition <- (j <- subscript "edition" item_data ;; as_str j) ;;
      Ok (Some (title, location, cost,
                Book author isbn publisher publication_year edition))
  | JStr "DVD" =>
      title <- (j <- subscript "title" item_data ;; as_str j) ;;
      director <- (j <- subscript "director" item_data ;; as_str j) ;;
      location <- (j <- subscript "location" item_data ;; as_str j) ;;
      cost <- (j <- subscript "cost" item_data ;; as_float j) ;;
      runtime <- (j <- subscript "runtime" item_data ;; as_int j) ;;
      release_year <- (j <- subscript "release_year" item_data ;; as_int j) ;;
      Ok (Some (title, location, cost, DVD director runtime release_year))
  | JStr "Magazine" =>
      title <- (j <- subscript "title" item_data ;; as_str j) ;;
      publisher <- (j <- subscript "publisher" item_data ;; as_str j) ;;
      location <- (j <- subscript "location" item_data ;; as_str j) ;;
      cost <- (j <- subscript "cost" item_data ;; as_float j) ;;
      issue_number <- (j <- subscript "issue_number" item_data ;; as_str j) ;;
      publication_date <- (j <- subscript "publication_date" item_data ;; parse_datetime j) ;;
      Ok (Some (title, location, cost,
                Magazine publisher issue_number publication_date))
  | _ => Ok None
  end.

(** One round of the loop over [data.get('items', [])]. [bound] tells
    whether an earlier round has bound the variable [item]: with no
    matching branch the assignments after the branches raise
    [UnboundLocalError] in the first round and overwrite the object of
    the round before in a later one, which then sits under two keys. *)
Definition load_item (bound : bool) (item_data : json) : outcome LibraryItem.t :=
  new <- load_item_new item_data ;;
  id <- subscript "id" item_data ;;
  match new with
  | None =>
      if bound then Unmodelled
      else raise UnboundLocalError "item"
  | Some (title, location, cost, kind) =>
      id <- as_str id ;;
      status <- (j <- subscript "status" item_data ;; ItemStatus_of_value j) ;;
      checked_out_to <- (j <- subscript "checked_out_to" item_data ;; as_opt_str j) ;;
      due <- subscript "due_date" item_data ;;
      due_date <- (if truthy due then d <- parse_datetime due ;; Ok (Some d)
                   else Ok None) ;;
      reserved_by <- (j <- subscript "reserved_by" item_data ;; as_str_list j) ;;
      Ok (LibraryItem.mk id title location cost status checked_out_to due_date
            reserved_by kind)
  end.

Fixpoint load_items (l : list json) (bound : bool)
    (items : gmap string LibraryItem.t) : outcome (gmap string LibraryItem.t) :=
  match l with
  | [] => Ok items
  | item_data :: l' =>
      item <- load_item bound item_data ;;
      load_items l' true (<[LibraryItem.id item := item]> items)
  end.

(** [load_data] on a database object, with the content of the data file
    ([None] when there is no file): the database and the file content
    afterwards. *)
Definition load_data (file : option json) (db : t) : outcome (t * json) :=
  match file with
  | None => Ok (db, save_data db)
  | Some data =>
      d <- match data with
           | JDict d => Ok d
           | _ => raise AttributeError "get"
           end ;;
      us <- iterate (default (JList []) (Dict.get "users" d)) ;;
      users' <- load_users us (users db) ;;
      its <- iterate (default (JList []) (Dict.get "items" d)) ;;
      items' <- load_items its false (items db) ;;
      Ok (mk users' items', data)
  end.

(** [LibraryDatabase()] *)
Definition init (file : option json) : outcome (t * json) :=
  load_data file (mk ∅ ∅).
End persistence.
End LibraryDatabase.

(** ** The checkout engine *)

Module LibrarySystem.
Import LibraryDatabase.

(** [add_user]; [uuid] is the id the constructor draws. *)
Definition add_user (uuid name email phone : string) (role : UserRole) (db : t)
  : LibraryUser.t * t :=
  let user := LibraryUser.init uuid name email phone role in
  (user, mk (<[LibraryUser.id user := user]> (users db)) (items db)).

Definition add_item (item : LibraryItem.t) (db : t) : t :=
  mk (users db) (<[LibraryItem.id item := item]> (items db)).

(** [check_out_item]; [now] is the reading of the clock. *)
Definition check_out_item (now : datetime) (user_id item_id : string) (db : t)
  : outcome t :=
  match users db !! user_id with
  | None => raise UserNotFoundException ("User " +:+ user_id +:+ " not found")
  | Some user =>
    match items db !! item_id with
    | None => raise LibraryException ("Item " +:+ item_id +:+ " not found")
    | Some item =>
      if negb (bool_decide (LibraryItem.status item = AVAILABLE)) then
        raise ItemNotAvailableException
          ("Item " +:+ LibraryItem.title item +:+ " is not available")
      else
        let item' :=
          LibraryItem.set_due_date
            (Some (now + LibraryItem.get_checkout_duration item))
            (LibraryItem.set_checked_out_to (Some (LibraryUser.id user))
               (LibraryItem.set_status CHECKED_OUT item)) in
        let user' :=
          LibraryUser.set_borrowed_items
            (LibraryUser.borrowed_items user ++ [LibraryItem.id item]) user in
        Ok (mk (<[user_id := user']> (users db)) (<[item_id := item']> (items db)))
    end
  end.

(** The late fee of [return_item]: [now1] is the clock reading compared
    with the due date, [now2] the later one the days are counted from. *)
Definition late_fee (now1 now2 : datetime) (item : LibraryItem.t)
    (user : LibraryUser.t) : LibraryUser.t :=
  match LibraryItem.due_date item with
  | Some due =>
      if now1 >? due then
        let days_late := Timedelta.days (now2 - due) in
        let fine := Float.mul (Float.of_int days_late) (LibraryItem.get_daily_fine item) in
        LibraryUser.set_fines (Float.add (LibraryUser.fines user) fine) user
      else user
  | None => user
  end.

(** The reservation step of [return_item], on the item already reset. *)
Definition handle_reservations (item : LibraryItem.t) : LibraryItem.t :=
  match LibraryItem.reserved_by item with
  | [] => item
  | next_user_id :: rest =>
      LibraryItem.set_status RESERVED (LibraryItem.set_reserved_by rest item)
  end.

(** The item at the end of [return_item]: reset, then the reservations. *)
Definition returned_item (item : LibraryItem.t) : LibraryItem.t :=
  handle_reservations
    (LibraryItem.set_due_date None
       (LibraryItem.set_checked_out_to None
          (LibraryItem.set_status AVAILABLE item))).

Definition return_item (now1 now2 : datetime) (item_id : string) (db : t)
  : outcome t :=
  match items db !! item_id with
  | None => raise LibraryException ("Item " +:+ item_id +:+ " not found")
  | Some item =>
    if negb (bool_decide (LibraryItem.status item = CHECKED_OUT)) then
      raise LibraryException
        ("Item " +:+ LibraryItem.title item +:+ " is not checked out")
    else
      users' <-
        match LibraryItem.checked_out_to item with
        | None => Ok (users db)
        | Some borrower =>
          match users db !! borrower with
          | None => Ok (users db)
          | Some user =>
            match list_remove (LibraryItem.id item) (LibraryUser.borrowed_items user) with
            | None => raise ValueError "list.remove(x): x not in list"
            | Some l =>
                let user' := late_fee now1 now2 item (LibraryUser.set_borrowed_items l user) in
                Ok (<[borrower := user']> (users db))
            end
          end
        end ;;
      Ok (mk users' (<[item_id := returned_item item]> (items db)))
  end.

Definition reserve_item (user_id item_id : string) (db : t) : outcome t :=
  match users db !! user_id with
  | None => raise UserNotFoundException ("User " +:+ user_id +:+ " not found")
  | Some user =>
    match items db !! item_id with
    | None => raise LibraryException ("Item " +:+ item_id +:+ " not found")
    | Some item =>
      if bool_decide (user_id ∈ LibraryItem.reserved_by item) then
        raise LibraryException "User has already reserved this item"
      else
        let item' :=
          LibraryItem.set_reserved_by (LibraryItem.reserved_by item ++ [user_id]) item in
        let user' :=
          LibraryUser.set_reserved_items
            (LibraryUser.reserved_items user ++ [item_id]) user in
        Ok (mk (<[user_id := user']> (users db)) (<[item_id := item']> (items db)))
    end
  end.

Definition pay_fines (user_id : string) (amount : float) (db : t) : outcome t :=
  match users db !! user_id with
  | None => raise UserNotFoundException ("User " +:+ user_id +:+ " not found")
  | Some user =>
      if Float.gtb amount (LibraryUser.fines user) then
        raise LibraryException "Payment amount exceeds outstanding fines"
      else
        let user' :=
          LibraryUser.set_fines (Float.sub (LibraryUser.fines user) amount) user in
        Ok (mk (<[user_id := user']> (users db)) (items db))
  end.

(** [self.database.items[item_id]] for each id of a list. *)
Fixpoint resolve (ids : list string) (db : t) : outcome (list LibraryItem.t) :=
  match ids with
  | [] => Ok []
  | item_id :: ids' =>
      match items db !! item_id with
      | None => raise KeyError item_id
      | Some item => r <- resolve ids' db ;; Ok (item :: r)
      end
  end.

(** [get_user_items]: the lists under ["borrowed"] and ["reserved"]. *)
Definition get_user_items (user_id : string) (db : t)
  : outcome (list LibraryItem.t * list LibraryItem.t) :=
  match users db !! user_id with
  | None => raise UserNotFoundException ("User " +:+ user_id +:+ " not found")
  | Some user =>
      borrowed <- resolve (LibraryUser.borrowed_items user) db ;;
      reserved <- resolve (LibraryUser.reserved_items user) db ;;
      Ok (borrowed, reserved)
  end.
End LibrarySystem.

Import LibraryDatabase LibrarySystem.

(** ** Calls and reachable states *)

(** A call of one of the six mutating operations of [LibrarySystem]. *)
Inductive call :=
  | AddUser (uuid name email phone : string) (role : UserRole)
  | AddItem (item : LibraryItem.t)
  | CheckOut (now : datetime) (user_id item_id : string)
  | Return (now1 now2 : datetime) (item_id : string)
  | Reserve (user_id item_id : string)
  | PayFines (user_id : string) (amount : float).

Definition run (c : call) (db : LibraryDatabase.t) : outcome LibraryDatabase.t :=
  match c with
  | AddUser uuid name email phone role => Ok (add_user uuid name email phone role db).2
  | AddItem item => Ok (add_item item db)
  | CheckOut now user_id item_id => check_out_item now user_id item_id db
  | Return now1 now2 item_id => return_item now1 now2 item_id db
  | Reserve user_id item_id => reserve_item user_id item_id db
  | PayFines user_id amount => pay_fines user_id amount db
  end.

(** An item as its constructor leaves it. *)
Definition newly_built (i : LibraryItem.t) : Prop :=
  i = LibraryItem.init (LibraryItem.id i) (LibraryItem.title i)
        (LibraryItem.location i) (LibraryItem.cost i) (LibraryItem.kind i).

(** What the callers of the engine provide: a uuid that is not in use, and
    for [add_item] an item that comes from its constructor. (Adding an
    object that is in the store already leaves the store as it is.) *)
Definition admissible (c : call) (db : LibraryDatabase.t) : Prop :=
  match c with
  | AddUser uuid _ _ _ _ => users db !! uuid = None
  | AddItem item => items db !! LibraryItem.id item = None /\ newly_built item
  | _ => True
  end.

(** The states of a system started without a data file. *)
Inductive reachable : LibraryDatabase.t -> Prop :=
  | reachable_init : reachable (mk ∅ ∅)
  | reachable_step c db db' :
      reachable db -> admissible c db -> run c db = Ok db' -> reachable db'.

(** ** Invariants *)

(** Every object sits under its own id. *)
Definition ids_ok (db : LibraryDatabase.t) : Prop :=
  (forall k u, users db !! k = Some u -> LibraryUser.id u = k) /\
  (forall k i, items db !! k = Some i -> LibraryItem.id i = k).

(** [CHECKED_OUT] exactly when borrower and due date are both set. *)
Definition item_status_ok (i : LibraryItem.t) : Prop :=
  LibraryItem.status i = CHECKED_OUT <->
  is_Some (LibraryItem.checked_out_to i) /\ is_Some (LibraryItem.due_date i).

Definition status_inv (db : LibraryDatabase.t) : Prop :=
  forall k i, items db !! k = Some i -> item_status_ok i.

(** The borrower of an item is a user of the store who holds it. *)
Definition borrowers_ok (db : LibraryDatabase.t) : Prop :=
  forall k i b,
    items db !! k = Some i -> LibraryItem.checked_out_to i = Some b ->
    exists u, users db !! b = Some u /\
              LibraryItem.id i ∈ LibraryUser.borrowed_items u.

Definition well_formed (db : LibraryDatabase.t) : Prop :=
  ids_ok db /\ status_inv db /\ borrowers_ok db.

(** The lists of a user mirror the references of the items, both ways:
    the items a user holds are those checked out to the user, and the items a
    user has reserved are those whose queue names the user. *)
Definition borrowed_mirror (db : LibraryDatabase.t) : Prop :=
  forall uk u ik i,
    users db !! uk = Some u -> items db !! ik = Some i ->
    (LibraryItem.id i ∈ LibraryUser.borrowed_items u <->
     LibraryItem.checked_out_to i = Some (LibraryUser.id u)).

Definition reserved_mirror (db : LibraryDatabase.t) : Prop :=
  forall uk u ik i,
    users db !! uk = Some u -> items db !! ik = Some i ->
    (LibraryItem.id i ∈ LibraryUser.reserved_items u <->
     LibraryUser.id u ∈ LibraryItem.reserved_by i).

Definition mirror_inv (db : LibraryDatabase.t) : Prop :=
  borrowed_mirror db /\ reserved_mirror db.

(** What else the lists of a reachable store satisfy: no item twice in a
    list of borrowed items, no user twice in a queue, a borrower only on a
    checked-out item, and no reference to a user or an item that is not in
    the store. *)
Definition coherent (db : LibraryDatabase.t) : Prop :=
  (forall k u,
     users db !! k = Some u ->
     NoDup (LibraryUser.borrowed_items u) /\
     (forall x,
        x ∈ LibraryUser.borrowed_items u \/ x ∈ LibraryUser.reserved_items u ->
        is_Some (items db !! x))) /\
  (forall k i,
     items db !! k = Some i ->
     (is_Some (LibraryItem.checked_out_to i) -> LibraryItem.status i = CHECKED_OUT) /\
     NoDup (LibraryItem.reserved_by i) /\
     (forall q, q ∈ LibraryItem.reserved_by i -> is_Some (users db !! q))).

(** A call that takes nobody off a queue: any call but the return of an
    item with a reservation. *)
Definition leaves_queues (c : call) (db : LibraryDatabase.t) : Prop :=
  match c with
  | Return _ _ item_id =>
      forall item, items db !! item_id = Some item -> LibraryItem.reserved_by item = []
  | _ => True
  end.

(** The last character of a string. *)
Fixpoint last_char (s : string) : option Ascii.ascii :=
  match s with
  | EmptyString => None
  | String c EmptyString => Some c
  | String _ s' => last_char s'
  end.

(** ** A small library

    Two users, Ann and Bob, and one book, in the states of a session in
    which Ann borrows the book at time 0, Bob reserves it and Ann brings it
    back 25 days later. *)
Module Example.
Definition day : Z := Timedelta.microseconds_per_day.

Definition ann : LibraryUser.t :=
  LibraryUser.init "A" "Ann" "ann@example.org" "555-0100" STUDENT.
Definition bob : LibraryUser.t :=
  LibraryUser.init "B" "Bob" "bob@example.org" "555-0101" FACULTY.
Definition book : LibraryItem.t :=
  LibraryItem.init "X" "Types and Programming Languages" "Shelf 3" Float.one
    (Book "Pierce" "0262162091" "MIT Press" 2002 "1st").

Definition empty : LibraryDatabase.t := mk ∅ ∅.
Definition stocked : LibraryDatabase.t :=
  mk (<["B" := bob]> (<["A" := ann]> ∅)) (<["X" := book]> ∅).

Definition book_lent : LibraryItem.t :=
  LibraryItem.set_due_date (Some (21 * day))
    (LibraryItem.set_checked_out_to (Some "A")
       (LibraryItem.set_status CHECKED_OUT book)).
Definition lent : LibraryDatabase.t :=
  mk (<["A" := LibraryUser.set_borrowed_items ["X"] ann]> (users stocked))
     (<["X" := book_lent]> (items stocked)).

Definition queued : LibraryDatabase.t :=
  mk (<["B" := LibraryUser.set_reserved_items ["X"] bob]> (users lent))
     (<["X" := LibraryItem.set_reserved_by ["B"] book_lent]> (items lent)).

(** The float 2.0. *)
Definition two : float := Eval vm_compute in Float.of_int 2.

Definition returned : LibraryDatabase.t :=
  mk (<["A" := LibraryUser.set_fines two ann]> (users queued))
     (<["X" := LibraryItem.set_status RESERVED book]> (items queued)).

(** A printer and a reader of timestamps that stand in for [isoformat] and
    [fromisoformat] in the examples: the decimal numeral of the microsecond
    count. *)
Definition stamp (d : datetime) : string :=
  DecimalString.NilEmpty.string_of_int (Z.to_int d).
Definition unstamp (s : string) : option datetime :=
  Z.of_int <$> DecimalString.NilEmpty.int_of_string s.

Definition magazine : LibraryItem.t :=
  LibraryItem.init "M" "Communications of the ACM" "Rack 1" Float.quarter
    (Magazine "ACM" "2024-05" 63850000000000000).
End Example.
(** ** Facts about binary64 arithmetic *)

Section float_facts.
Import Float.

Lemma SFcompare_flip (x y : float) :
  SFcompare y x = option_map CompOpp (SFcompare x y).
Proof.
  destruct x as [sx|sx| |sx mx ex], y as [sy|sy| |sy my ey]; simpl; try done;
    try (by destruct sx); try (by destruct sy); try (by destruct sx, sy).
  destruct sx, sy; simpl; try done; f_equal.
  - rewrite (Z.compare_antisym ey ex).
    destruct (ey ?= ex); simpl; try done.
    f_equal. symmetry. apply (Pos.compare_cont_antisym mx my Eq).
  - rewrite (Z.compare_antisym ey ex).
    destruct (ey ?= ex); simpl; try done.
    symmetry. apply (Pos.compare_cont_antisym mx my Eq).
Qed.

(** [a <= b] rules out [a > b]. *)
Lemma leb_not_gtb (a b : float) : leb a b = true -> gtb a b = false.
Proof.
  unfold leb, gtb, SFleb, SFltb. rewrite (SFcompare_flip a b).
  by destruct (SFcompare a b) as [[]|].
Qed.

(** [a > b] rules out [a == b]. *)
Lemma eqb_not_gtb (a b : float) : eqb a b = true -> gtb a b = false.
Proof.
  unfold eqb, gtb, SFeqb, SFltb. rewrite (SFcompare_flip a b).
  by destruct (SFcompare a b) as [[]|].
Qed.

(** Subtracting a number from an equal one leaves a zero. *)
Lemma sub_eqb_zero (a b : float) :
  is_finite b = true -> eqb a b = true -> eqb (sub b a) zero = true.
Proof.
  unfold eqb, SFeqb, sub.
  destruct a as [sa|sa| |sa ma ea], b as [sb|sb| |sb mb eb]; simpl; try done;
    try (by destruct sa); try (by destruct sb); try (by destruct sa, sb).
  intros _ Hc.
  assert (sa = sb /\ ea = eb /\ ma = mb) as (-> & -> & ->).
  { destruct sa, sb; try done; destruct (ea ?= eb) eqn:He; try done;
      apply Z.compare_eq in He; subst; repeat split; try done.
    - destruct (Pos.compare_cont Eq ma mb) eqn:Hm; try done.
      by apply Pos.compare_eq in Hm.
    - destruct (Pos.compare_cont Eq ma mb) eqn:Hm; try done.
      by apply Pos.compare_eq in Hm. }
  by rewrite Z.sub_diag.
Qed.
End float_facts.

(** ** What a successful call has done *)

Lemma list_remove_elem_of (x : string) (l : list string) :
  x ∈ l -> is_Some (list_remove x l).
Proof.
  induction l as [|y l IH]; simpl; [by intros ?%elem_of_nil|].
  intros Hin. destruct (decide (y = x)) as [->|Hne]; [by eexists|].
  apply elem_of_cons in Hin as [->|Hin]; [done|].
  destruct (IH Hin) as [l' ->]. by eexists.
Qed.

Lemma list_remove_keeps (x y : string) (l l' : list string) :
  list_remove x l = Some l' -> y <> x -> y ∈ l -> y ∈ l'.
Proof.
  revert l'. induction l as [|z l IH]; simpl; intros l' Hrm Hne Hin; [done|].
  destruct (decide (z = x)) as [->|Hzx].
  - injection Hrm as <-. apply elem_of_cons in Hin as [->|Hin]; done.
  - destruct (list_remove x l) as [l''|] eqn:Hl; [|done].
    injection Hrm as <-. apply elem_of_cons in Hin as [->|Hin].
    + apply elem_of_cons. by left.
    + apply elem_of_cons. right. by apply IH.
Qed.

Lemma check_out_item_Ok now user_id item_id db db' :
  check_out_item now user_id item_id db = Ok db' ->
  exists user item,
    users db !! user_id = Some user /\ items db !! item_id = Some item /\
    LibraryItem.status item = AVAILABLE /\
    db' = mk
      (<[user_id := LibraryUser.set_borrowed_items
           (LibraryUser.borrowed_items user ++ [LibraryItem.id item]) user]> (users db))
      (<[item_id := LibraryItem.set_due_date
           (Some (now + LibraryItem.get_checkout_duration item))
           (LibraryItem.set_checked_out_to (Some (LibraryUser.id user))
              (LibraryItem.set_status CHECKED_OUT item))]> (items db)).
Proof.
  unfold check_out_item. intros H.
  destruct (users db !! user_id) as [user|]; [|done].
  destruct (items db !! item_id) as [item|]; [|done].
  case_bool_decide as Hst; simpl in H; [|done].
  injection H as <-. by exists user, item.
Qed.

Lemma return_item_Ok now1 now2 item_id db db' :
  return_item now1 now2 item_id db = Ok db' ->
  exists item users',
    items db !! item_id = Some item /\ LibraryItem.status item = CHECKED_OUT /\
    db' = mk users' (<[item_id := returned_item item]> (items db)) /\
    ((users' = users db /\
      forall borrower user,
        LibraryItem.checked_out_to item = Some borrower ->
        users db !! borrower = Some user -> False) \/
     exists borrower user l,
       LibraryItem.checked_out_to item = Some borrower /\
       users db !! borrower = Some user /\
       list_remove (LibraryItem.id item) (LibraryUser.borrowed_items user) = Some l /\
       users' = <[borrower := late_fee now1 now2 item
                    (LibraryUser.set_borrowed_items l user)]> (users db)).
Proof.
  unfold return_item. intros H.
  destruct (items db !! item_id) as [item|]; [|done].
  case_bool_decide as Hst; simpl in H; [|done].
  destruct (LibraryItem.checked_out_to item) as [borrower|] eqn:Hb.
  - destruct (users db !! borrower) as [user|] eqn:Hu.
    + destruct (list_remove _ _) as [l|] eqn:Hl; [|done].
      simpl in H. injection H as <-. eexists item, _. repeat split; [done|].
      right. by exists borrower, user, l.
    + simpl in H. injection H as <-. eexists item, _. repeat split; [done|].
      left. split; [done|]. intros b u Hb' Hu'. congruence.
  - simpl in H. injection H as <-. eexists item, _. repeat split; [done|].
    left. split; [done|]. intros b u Hb' Hu'. congruence.
Qed.

Lemma reserve_item_Ok user_id item_id db db' :
  reserve_item user_id item_id db = Ok db' ->
  exists user item,
    users db !! user_id = Some user /\ items db !! item_id = Some item /\
    (user_id ∉ LibraryItem.reserved_by item) /\
    db' = mk
      (<[user_id := LibraryUser.set_reserved_items
           (LibraryUser.reserved_items user ++ [item_id]) user]> (users db))
      (<[item_id := LibraryItem.set_reserved_by
           (LibraryItem.reserved_by item ++ [user_id]) item]> (items db)).
Proof.
  unfold reserve_item. intros H.
  destruct (users db !! user_id) as [user|]; [|done].
  destruct (items db !! item_id) as [item|]; [|done].
  case_bool_decide as Hin; [done|].
  injection H as <-. by exists user, item.
Qed.

Lemma pay_fines_Ok user_id amount db db' :
  pay_fines user_id amount db = Ok db' ->
  exists user,
    users db !! user_id = Some user /\
    Float.gtb amount (LibraryUser.fines user) = false /\
    db' = mk
      (<[user_id := LibraryUser.set_fines
           (Float.sub (LibraryUser.fines user) amount) user]> (users db))
      (items db).
Proof.
  unfold pay_fines. intros H.
  destruct (users db !! user_id) as [user|]; [|done].
  destruct (Float.gtb amount (LibraryUser.fines user)) eqn:Hgt; [done|].
  injection H as <-. by exists user.
Qed.

(** ** Preservation of the invariants *)

(** A lookup in a map after an insertion: at the inserted key, or elsewhere. *)
Ltac insert_cases H :=
  simpl in H; apply lookup_insert_Some in H as [[<- <-]|[? H]].

Lemma returned_item_id item :
  LibraryItem.id (returned_item item) = LibraryItem.id item.
Proof.
  unfold returned_item, handle_reservations; simpl.
  by destruct (LibraryItem.reserved_by item).
Qed.

Lemma returned_item_checked_out_to item :
  LibraryItem.checked_out_to (returned_item item) = None.
Proof.
  unfold returned_item, handle_reservations; simpl.
  by destruct (LibraryItem.reserved_by item).
Qed.

Lemma returned_item_due_date item :
  LibraryItem.due_date (returned_item item) = None.
Proof.
  unfold returned_item, handle_reservations; simpl.
  by destruct (LibraryItem.reserved_by item).
Qed.

(** The front of the queue is popped and the status follows the queue. *)
Lemma returned_item_queue item :
  match LibraryItem.reserved_by item with
  | [] =>
      LibraryItem.status (returned_item item) = AVAILABLE /\
      LibraryItem.reserved_by (returned_item item) = []
  | front :: rest =>
      LibraryItem.status (returned_item item) = RESERVED /\
      LibraryItem.reserved_by (returned_item item) = rest
  end.
Proof.
  unfold returned_item, handle_reservations; simpl.
  destruct (LibraryItem.reserved_by item) eqn:E; simpl; by rewrite ?E.
Qed.

Lemma returned_item_status item :
  LibraryItem.status (returned_item item) <> CHECKED_OUT.
Proof.
  pose proof (returned_item_queue item) as H.
  destruct (LibraryItem.reserved_by item); destruct H as [-> _]; done.
Qed.

Lemma late_fee_id now1 now2 item user :
  LibraryUser.id (late_fee now1 now2 item user) = LibraryUser.id user.
Proof.
  unfold late_fee. destruct (LibraryItem.due_date item); [|done].
  by destruct (_ >? _).
Qed.

Lemma late_fee_borrowed_items now1 now2 item user :
  LibraryUser.borrowed_items (late_fee now1 now2 item user) =
  LibraryUser.borrowed_items user.
Proof.
  unfold late_fee. destruct (LibraryItem.due_date item); [|done].
  by destruct (_ >? _).
Qed.

Lemma late_fee_reserved_items now1 now2 item user :
  LibraryUser.reserved_items (late_fee now1 now2 item user) =
  LibraryUser.reserved_items user.
Proof.
  unfold late_fee. destruct (LibraryItem.due_date item); [|done].
  by destruct (_ >? _).
Qed.

Lemma ids_ok_run c db db' : ids_ok db -> run c db = Ok db' -> ids_ok db'.
Proof.
  intros [Hu Hi] Hrun. destruct c; simpl in Hrun.
  - injection Hrun as <-. split; simpl; [|done].
    intros k u [[<- <-]|[_ Hk]]%lookup_insert_Some; [done|by apply Hu].
  - injection Hrun as <-. split; simpl; [done|].
    intros k i [[<- <-]|[_ Hk]]%lookup_insert_Some; [done|by apply Hi].
  - apply check_out_item_Ok in Hrun as (user & item & Hus & Hit & _ & ->).
    split; simpl.
    + intros k u [[<- <-]|[_ Hk]]%lookup_insert_Some; [simpl; by apply Hu|by apply Hu].
    + intros k i [[<- <-]|[_ Hk]]%lookup_insert_Some; [simpl; by apply Hi|by apply Hi].
  - apply return_item_Ok in Hrun as (item & users' & Hit & _ & -> & Hus).
    split; simpl.
    + destruct Hus as [[-> _]|(b & user & l & _ & Hb & _ & ->)]; [done|].
      intros k u [[<- <-]|[_ Hk]]%lookup_insert_Some; [|by apply Hu].
      rewrite late_fee_id; simpl. by apply Hu.
    + intros k i [[<- <-]|[_ Hk]]%lookup_insert_Some; [|by apply Hi].
      rewrite returned_item_id. by apply Hi.
  - apply reserve_item_Ok in Hrun as (user & item & Hus & Hit & _ & ->).
    split; simpl.
    + intros k u [[<- <-]|[_ Hk]]%lookup_insert_Some; [simpl; by apply Hu|by apply Hu].
    + intros k i [[<- <-]|[_ Hk]]%lookup_insert_Some; [simpl; by apply Hi|by apply Hi].
  - apply pay_fines_Ok in Hrun as (user & Hus & _ & ->).
    split; simpl; [|done].
    intros k u [[<- <-]|[_ Hk]]%lookup_insert_Some; [simpl; by apply Hu|by apply Hu].
Qed.

Lemma newly_built_status_ok item : newly_built item -> item_status_ok item.
Proof.
  intros ->. unfold item_status_ok; simpl. split; [done|].
  by intros [[? ?] _].
Qed.

Lemma status_inv_run c db db' :
  status_inv db ->
  (forall item, c = AddItem item -> item_status_ok item) ->
  run c db = Ok db' -> status_inv db'.
Proof.
  intros Hinv Hnew Hrun. destruct c; simpl in Hrun.
  - by injection Hrun as <-.
  - injection Hrun as <-.
    intros k i Hk. insert_cases Hk; [by apply Hnew|by eapply Hinv].
  - apply check_out_item_Ok in Hrun as (user & item & _ & _ & _ & ->).
    intros k i Hk. insert_cases Hk; [|by eapply Hinv].
    unfold item_status_ok; simpl. split; [by eauto|done].
  - apply return_item_Ok in Hrun as (item & users' & _ & _ & -> & _).
    intros k i Hk. insert_cases Hk; [|by eapply Hinv].
    unfold item_status_ok. rewrite returned_item_checked_out_to. split.
    + intros Hst. by apply returned_item_status in Hst.
    + by intros [[? ?] _].
  - apply reserve_item_Ok in Hrun as (user & item & _ & Hit & _ & ->).
    intros k i Hk. insert_cases Hk; [|by eapply Hinv].
    by apply (Hinv _ _ Hit).
  - apply pay_fines_Ok in Hrun as (user & _ & _ & ->). done.
Qed.

Lemma borrowers_ok_run c db db' :
  ids_ok db -> borrowers_ok db -> admissible c db -> run c db = Ok db' ->
  borrowers_ok db'.
Proof.
  intros [Hu Hi] Hinv Hadm Hrun. destruct c; simpl in Hrun, Hadm.
  - injection Hrun as <-. intros k i b Hk Hb; simpl in *.
    destruct (Hinv _ _ _ Hk Hb) as (u & Hub & Hin).
    exists u. split; [|done]. rewrite lookup_insert_ne; [done|congruence].
  - injection Hrun as <-. destruct Hadm as [_ Hnew].
    intros k i b Hk Hb. insert_cases Hk.
    + rewrite Hnew in Hb. done.
    + by apply (Hinv _ _ _ Hk Hb).
  - apply check_out_item_Ok in Hrun as (user & item & Hus & Hit & _ & ->).
    intros k i b Hk Hb. insert_cases Hk; simpl in *.
    + injection Hb as <-. rewrite (Hu _ _ Hus), lookup_insert_eq.
      eexists. split; [done|]. simpl. apply elem_of_app. right. by apply list_elem_of_singleton.
    + destruct (Hinv _ _ _ Hk Hb) as (u & Hub & Hin).
      destruct (decide (user_id = b)) as [->|Hne].
      * rewrite lookup_insert_eq. eexists. split; [done|]. simpl.
        apply elem_of_app. left. congruence.
      * rewrite lookup_insert_ne by done. by exists u.
  - apply return_item_Ok in Hrun as (item & users' & Hit & _ & -> & Hus).
    intros k i b Hk Hb. insert_cases Hk; simpl in *.
    + by rewrite returned_item_checked_out_to in Hb.
    + destruct (Hinv _ _ _ Hk Hb) as (u & Hub & Hin).
      destruct Hus as [[-> _]|(b' & user & l & _ & Hb' & Hl & ->)]; [by exists u|].
      destruct (decide (b' = b)) as [->|Hne].
      * rewrite lookup_insert_eq. eexists. split; [done|].
        rewrite late_fee_borrowed_items; simpl.
        apply (list_remove_keeps _ _ _ _ Hl); [|congruence].
        rewrite (Hi _ _ Hk), (Hi _ _ Hit). congruence.
      * rewrite lookup_insert_ne by done. by exists u.
  - apply reserve_item_Ok in Hrun as (user & item & Hus & Hit & _ & ->).
    intros k i b Hk Hb.
    assert (exists i0, items db !! k = Some i0 /\
              LibraryItem.checked_out_to i0 = Some b /\
              LibraryItem.id i0 = LibraryItem.id i) as (i0 & Hk0 & Hb0 & <-).
    { insert_cases Hk; [by exists item|by exists i]. }
    destruct (Hinv _ _ _ Hk0 Hb0) as (u & Hub & Hin); simpl.
    destruct (decide (user_id = b)) as [->|Hne].
    + rewrite lookup_insert_eq. eexists. split; [done|]. simpl. congruence.
    + rewrite lookup_insert_ne by done. by exists u.
  - apply pay_fines_Ok in Hrun as (user & Hus & _ & ->).
    intros k i b Hk Hb; simpl in *.
    destruct (Hinv _ _ _ Hk Hb) as (u & Hub & Hin).
    destruct (decide (user_id = b)) as [->|Hne].
    + rewrite lookup_insert_eq. eexists. split; [done|]. simpl. congruence.
    + rewrite lookup_insert_ne by done. by exists u.
Qed.

Lemma well_formed_init : well_formed (mk ∅ ∅).
Proof.
  split; [split|split]; intros k x; simpl; by rewrite ?lookup_empty.
Qed.

Lemma well_formed_run c db db' :
  well_formed db -> admissible c db -> run c db = Ok db' -> well_formed db'.
Proof.
  intros (Hids & Hst & Hbo) Hadm Hrun. split; [|split].
  - by eapply ids_ok_run.
  - eapply status_inv_run; [done| |done].
    intros item ->. apply newly_built_status_ok, Hadm.
  - by eapply borrowers_ok_run.
Qed.

(** Every reachable state is well formed. *)
Lemma reachable_well_formed db : reachable db -> well_formed db.
Proof.
  induction 1 as [|c db db' _ IH Hadm Hrun]; [apply well_formed_init|].
  by eapply well_formed_run.
Qed.

(** ** The example session *)

Lemma example_stocked :
  run (AddItem Example.book)
    (add_user "B" "Bob" "bob@example.org" "555-0101" FACULTY
       (add_user "A" "Ann" "ann@example.org" "555-0100" STUDENT Example.empty).2).2
  = Ok Example.stocked.
Proof. reflexivity. Qed.

Lemma example_lent : run (CheckOut 0 "A" "X") Example.stocked = Ok Example.lent.
Proof. vm_compute. reflexivity. Qed.

Lemma example_queued : run (Reserve "B" "X") Example.lent = Ok Example.queued.
Proof. vm_compute. reflexivity. Qed.

Lemma example_returned :
  run (Return (25 * Example.day) (25 * Example.day) "X") Example.queued
  = Ok Example.returned.
Proof. vm_compute. reflexivity. Qed.

Lemma reachable_stocked : reachable Example.stocked.
Proof.
  apply (reachable_step (AddItem Example.book) (mk (users Example.stocked) ∅));
    [|by split|reflexivity].
  apply (reachable_step (AddUser "B" "Bob" "bob@example.org" "555-0101" FACULTY)
           (mk (<["A" := Example.ann]> ∅) ∅)); [|reflexivity|reflexivity].
  apply (reachable_step (AddUser "A" "Ann" "ann@example.org" "555-0100" STUDENT)
           Example.empty); [|reflexivity|reflexivity].
  apply reachable_init.
Qed.

Lemma reachable_lent : reachable Example.lent.
Proof.
  exact (reachable_step (CheckOut 0 "A" "X") _ _ reachable_stocked I example_lent).
Qed.

Lemma reachable_queued : reachable Example.queued.
Proof.
  exact (reachable_step (Reserve "B" "X") _ _ reachable_lent I example_queued).
Qed.

Lemma reachable_returned : reachable Example.returned.
Proof.
  exact (reachable_step (Return (25 * Example.day) (25 * Example.day) "X") _ _
           reachable_queued I example_returned).
Qed.

(** ** Checking out *)

(** C5. When the user id and the item id resolve: if the item is AVAILABLE,
    [check_out_item] succeeds, the item becomes CHECKED_OUT, its
    [checked_out_to] is the user's id, its [due_date] is [now] plus 21 days
    for a book, 7 for a DVD and 14 for a magazine, and the item's id is
    appended to the user's [borrowed_items]; if the item is not AVAILABLE
    the call raises [ItemNotAvailableException]. *)
Theorem check_out_item_spec now user_id item_id db user item :
  users db !! user_id = Some user ->
  items db !! item_id = Some item ->
  (LibraryItem.status item = AVAILABLE ->
   exists db' user' item',
     check_out_item now user_id item_id db = Ok db' /\
     users db' !! user_id = Some user' /\
     items db' !! item_id = Some item' /\
     LibraryItem.status item' = CHECKED_OUT /\
     LibraryItem.checked_out_to item' = Some (LibraryUser.id user) /\
     LibraryItem.due_date item' =
       Some (now + Timedelta.of_days
                     match LibraryItem.kind item with
                     | Book _ _ _ _ _ => 21
                     | DVD _ _ _ => 7
                     | Magazine _ _ _ => 14
                     end) /\
     LibraryUser.borrowed_items user' =
       LibraryUser.borrowed_items user ++ [LibraryItem.id item]) /\
  (LibraryItem.status item <> AVAILABLE ->
   exists msg,
     check_out_item now user_id item_id db = Raise (Exn ItemNotAvailableException msg)).
Proof.
  intros Hus Hit. unfold check_out_item. rewrite Hus, Hit. split; intros Hst.
  - rewrite bool_decide_eq_true_2 by done. simpl.
    eexists _, _, _. split; [done|]. simpl.
    rewrite !lookup_insert_eq. repeat split.
    unfold LibraryItem.get_checkout_duration. by destruct (LibraryItem.kind item).
  - rewrite bool_decide_eq_false_2 by done. simpl. by eexists.
Qed.

Lemma check_out_item_spec_witness :
  (exists db' item',
     check_out_item 0 "A" "X" Example.stocked = Ok db' /\
     items db' !! "X" = Some item' /\
     LibraryItem.due_date item' = Some (0 + Timedelta.of_days 21)) /\
  (exists msg,
     check_out_item 0 "B" "X" Example.lent = Raise (Exn ItemNotAvailableException msg)).
Proof.
  split.
  - destruct (check_out_item_spec 0 "A" "X" Example.stocked Example.ann Example.book
                eq_refl eq_refl) as [H _].
    destruct (H eq_refl) as (db' & user' & item' & Hrun & _ & Hit & _ & _ & Hdue & _).
    exists db', item'. repeat split; assumption.
  - destruct (check_out_item_spec 0 "B" "X" Example.lent Example.bob Example.book_lent
                eq_refl eq_refl) as [_ H].
    apply H. discriminate.
Defined.

(** ** Reserving *)

(** C6. When the user id and the item id resolve: [reserve_item] fails if
    the user's id is already in the item's [reserved_by], and otherwise
    appends the user's id at the back of [reserved_by] and the item's id at
    the back of the user's [reserved_items]; the same call made again then
    fails, and a user who reserves next queues behind. *)
Theorem reserve_item_spec user_id item_id db user item :
  users db !! user_id = Some user ->
  items db !! item_id = Some item ->
  (user_id ∈ LibraryItem.reserved_by item ->
   exists msg, reserve_item user_id item_id db = Raise (Exn LibraryException msg)) /\
  ((user_id ∉ LibraryItem.reserved_by item) ->
   exists db' user' item',
     reserve_item user_id item_id db = Ok db' /\
     users db' !! user_id = Some user' /\
     items db' !! item_id = Some item' /\
     LibraryItem.reserved_by item' = LibraryItem.reserved_by item ++ [user_id] /\
     LibraryUser.reserved_items user' = LibraryUser.reserved_items user ++ [item_id] /\
     (exists msg, reserve_item user_id item_id db' = Raise (Exn LibraryException msg)) /\
     (forall next,
        is_Some (users db !! next) -> next <> user_id ->
        (next ∉ LibraryItem.reserved_by item) ->
        exists db'' item'',
          reserve_item next item_id db' = Ok db'' /\
          items db'' !! item_id = Some item'' /\
          LibraryItem.reserved_by item'' =
            LibraryItem.reserved_by item ++ [user_id; next])).
Proof.
  intros Hus Hit. split; intros Hin.
  - unfold reserve_item. rewrite Hus, Hit, bool_decide_eq_true_2 by done. by eexists.
  - unfold reserve_item at 1. rewrite Hus, Hit, bool_decide_eq_false_2 by done.
    eexists _, _, _. split; [done|]. simpl.
    rewrite !lookup_insert_eq. repeat split.
    + unfold reserve_item; simpl. rewrite !lookup_insert_eq; simpl.
      rewrite bool_decide_eq_true_2; [by eexists|].
      apply elem_of_app. right. by apply list_elem_of_singleton.
    + intros next [u Hnext] Hne Hnin.
      unfold reserve_item; simpl.
      rewrite lookup_insert_ne, Hnext, lookup_insert_eq by done; simpl.
      rewrite bool_decide_eq_false_2.
      * eexists _, _. split; [done|]. simpl. rewrite lookup_insert_eq.
        split; [done|]. simpl. by rewrite <- app_assoc.
      * intros [?|?%list_elem_of_singleton]%elem_of_app; done.
Qed.

Lemma reserve_item_spec_witness :
  (exists db' item',
     reserve_item "B" "X" Example.lent = Ok db' /\
     items db' !! "X" = Some item' /\
     LibraryItem.reserved_by item' = ["B"]) /\
  (exists msg,
     reserve_item "B" "X" Example.queued = Raise (Exn LibraryException msg)).
Proof.
  split.
  - destruct (reserve_item_spec "B" "X" Example.lent Example.bob Example.book_lent
                eq_refl eq_refl) as [_ H].
    destruct H as (db' & user' & item' & Hrun & _ & Hit & Hq & _).
    { intros Hin. inversion Hin. }
    exists db', item'. repeat split; assumption.
  - destruct (reserve_item_spec "B" "X" Example.queued
                (LibraryUser.set_reserved_items ["X"] Example.bob)
                (LibraryItem.set_reserved_by ["B"] Example.book_lent)
                eq_refl eq_refl) as [H _].
    apply H. simpl. left.
Defined.

(** ** Paying fines *)

(** C7. For a user of the store, [pay_fines] fails when the amount is
    strictly greater than the user's balance and otherwise decrements the
    balance by the amount; paying an amount equal to a balance that is a
    number leaves a balance of zero. *)
Theorem pay_fines_spec user_id amount db user :
  users db !! user_id = Some user ->
  (Float.gtb amount (LibraryUser.fines user) = true ->
   exists msg, pay_fines user_id amount db = Raise (Exn LibraryException msg)) /\
  (Float.gtb amount (LibraryUser.fines user) = false ->
   exists db' user',
     pay_fines user_id amount db = Ok db' /\
     users db' !! user_id = Some user' /\
     LibraryUser.fines user' = Float.sub (LibraryUser.fines user) amount) /\
  (Float.eqb amount (LibraryUser.fines user) = true ->
   Float.is_finite (LibraryUser.fines user) = true ->
   exists db' user',
     pay_fines user_id amount db = Ok db' /\
     users db' !! user_id = Some user' /\
     Float.eqb (LibraryUser.fines user') Float.zero = true).
Proof.
  intros Hus. unfold pay_fines. rewrite Hus. split; [|split].
  - intros ->. by eexists.
  - intros ->. eexists _, _. split; [done|]. simpl. by rewrite lookup_insert_eq.
  - intros Heq Hfin. rewrite (eqb_not_gtb _ _ Heq).
    eexists _, _. split; [done|]. simpl. rewrite lookup_insert_eq.
    split; [done|]. simpl. by apply sub_eqb_zero.
Qed.

Lemma pay_fines_spec_witness :
  (exists msg,
     pay_fines "A" (Float.of_int 3) Example.returned = Raise (Exn LibraryException msg)) /\
  (exists db' user',
     pay_fines "A" Float.one Example.returned = Ok db' /\
     users db' !! "A" = Some user' /\
     LibraryUser.fines user' = Float.one) /\
  (exists db' user',
     pay_fines "A" Example.two Example.returned = Ok db' /\
     users db' !! "A" = Some user' /\
     Float.eqb (LibraryUser.fines user') Float.zero = true).
Proof.
  pose proof (fun amount =>
    pay_fines_spec "A" amount Example.returned
      (LibraryUser.set_fines Example.two Example.ann) eq_refl) as H.
  split; [|split].
  - apply (H (Float.of_int 3)). reflexivity.
  - destruct (H Float.one) as (_ & Hok & _).
    destruct (Hok eq_refl) as (db' & user' & Hrun & Hu & Hf).
    exists db', user'. repeat split; assumption.
  - destruct (H Example.two) as (_ & _ & Hz). apply Hz; reflexivity.
Defined.

(** C10. For a user of the store and an amount less than or equal to the
    user's balance, negative amounts included, [pay_fines] succeeds and the
    balance becomes balance minus amount; nothing bounds the amount from
    below, and a negative payment makes a balance grow. *)
Theorem pay_fines_no_lower_bound :
  (forall user_id amount db user,
     users db !! user_id = Some user ->
     Float.leb amount (LibraryUser.fines user) = true ->
     exists db' user',
       pay_fines user_id amount db = Ok db' /\
       users db' !! user_id = Some user' /\
       LibraryUser.fines user' = Float.sub (LibraryUser.fines user) amount) /\
  (exists user_id amount db user db' user',
     users db !! user_id = Some user /\
     Float.ltb amount Float.zero = true /\
     pay_fines user_id amount db = Ok db' /\
     users db' !! user_id = Some user' /\
     Float.ltb (LibraryUser.fines user) (LibraryUser.fines user') = true).
Proof.
  split.
  - intros user_id amount db user Hus Hle.
    unfold pay_fines. rewrite Hus, (leb_not_gtb _ _ Hle).
    eexists _, _. split; [done|]. simpl. by rewrite lookup_insert_eq.
  - exists "A", (Float.of_int (-1)), Example.stocked, Example.ann.
    eexists _, _. split; [reflexivity|]. split; [reflexivity|].
    split; [reflexivity|]. split; reflexivity.
Qed.

Lemma pay_fines_no_lower_bound_witness :
  exists db' user',
    pay_fines "A" (Float.of_int (-5)) Example.returned = Ok db' /\
    users db' !! "A" = Some user' /\
    LibraryUser.fines user' = Float.of_int 7.
Proof.
  destruct pay_fines_no_lower_bound as [H _].
  destruct (H "A" (Float.of_int (-5)) Example.returned
              (LibraryUser.set_fines Example.two Example.ann) eq_refl eq_refl)
    as (db' & user' & Hrun & Hu & Hf).
  exists db', user'. repeat split; assumption.
Defined.

(** ** Returning *)

Lemma days_floor (d n : Z) :
  Timedelta.of_days n <= d < Timedelta.of_days (n + 1) -> Timedelta.days d = n.
Proof.
  unfold Timedelta.of_days, Timedelta.days, Timedelta.microseconds_per_day.
  intros H. symmetry. apply (Z.div_unique d _ n (d - n * 86400000000)); lia.
Qed.

(** In a store where borrowers hold their items, returning a checked-out
    item succeeds. *)
Lemma return_item_succeeds now1 now2 item_id db item :
  borrowers_ok db ->
  items db !! item_id = Some item ->
  LibraryItem.status item = CHECKED_OUT ->
  exists users',
    return_item now1 now2 item_id db =
      Ok (mk users' (<[item_id := returned_item item]> (items db))) /\
    forall borrower user,
      LibraryItem.checked_out_to item = Some borrower ->
      users db !! borrower = Some user ->
      exists l,
        list_remove (LibraryItem.id item) (LibraryUser.borrowed_items user) = Some l /\
        users' = <[borrower := late_fee now1 now2 item
                     (LibraryUser.set_borrowed_items l user)]> (users db).
Proof.
  intros Hbo Hit Hst. unfold return_item.
  rewrite Hit, bool_decide_eq_true_2 by done. simpl.
  destruct (LibraryItem.checked_out_to item) as [b|] eqn:Hb.
  - destruct (Hbo _ _ _ Hit Hb) as (u & Hu & Hin). rewrite Hu.
    destruct (list_remove_elem_of _ _ Hin) as [l Hl]. rewrite Hl. simpl.
    eexists. split; [done|].
    intros borrower user [= <-] Hu'. rewrite Hu in Hu'. injection Hu' as <-.
    by exists l.
  - simpl. eexists. split; [done|]. by intros ? ? [=].
Qed.

(** C1. In every reachable state, returning an item whose status is
    CHECKED_OUT succeeds and leaves [checked_out_to] and [due_date] null;
    when [reserved_by] is not empty its front entry is removed, the rest of
    the queue is kept in order and the status becomes RESERVED; when it is
    empty the status becomes AVAILABLE. *)
Theorem return_item_reservations now1 now2 item_id db item :
  reachable db ->
  items db !! item_id = Some item ->
  LibraryItem.status item = CHECKED_OUT ->
  exists db' item',
    return_item now1 now2 item_id db = Ok db' /\
    items db' !! item_id = Some item' /\
    LibraryItem.checked_out_to item' = None /\
    LibraryItem.due_date item' = None /\
    match LibraryItem.reserved_by item with
    | [] =>
        LibraryItem.status item' = AVAILABLE /\
        LibraryItem.reserved_by item' = []
    | front :: rest =>
        LibraryItem.status item' = RESERVED /\
        LibraryItem.reserved_by item' = rest
    end.
Proof.
  intros (_ & _ & Hbo)%reachable_well_formed Hit Hst.
  destruct (return_item_succeeds now1 now2 _ _ _ Hbo Hit Hst) as (users' & Hrun & _).
  eexists _, _. split; [exact Hrun|]. simpl. rewrite lookup_insert_eq.
  split; [done|]. split; [apply returned_item_checked_out_to|].
  split; [apply returned_item_due_date|apply returned_item_queue].
Qed.

Lemma return_item_reservations_witness :
  exists db' item',
    return_item (25 * Example.day) (25 * Example.day) "X" Example.queued = Ok db' /\
    items db' !! "X" = Some item' /\
    LibraryItem.checked_out_to item' = None /\
    LibraryItem.status item' = RESERVED /\
    LibraryItem.reserved_by item' = [].
Proof.
  destruct (return_item_reservations (25 * Example.day) (25 * Example.day) "X"
              Example.queued (LibraryItem.set_reserved_by ["B"] Example.book_lent)
              reachable_queued eq_refl eq_refl)
    as (db' & item' & Hrun & Hit & Hb & _ & Hst & Hq).
  exists db', item'. repeat split; assumption.
Defined.

(** The fine of a late return, in any store where borrowers hold their
    items. *)
Lemma return_item_fine now1 now2 item_id db item borrower user due n :
  borrowers_ok db ->
  items db !! item_id = Some item ->
  LibraryItem.status item = CHECKED_OUT ->
  LibraryItem.checked_out_to item = Some borrower ->
  users db !! borrower = Some user ->
  LibraryItem.due_date item = Some due ->
  due < now1 ->
  Timedelta.of_days n <= now2 - due < Timedelta.of_days (n + 1) ->
  exists db' user',
    return_item now1 now2 item_id db = Ok db' /\
    users db' !! borrower = Some user' /\
    LibraryUser.fines user' =
      Float.add (LibraryUser.fines user)
        (Float.mul (Float.of_int n) (LibraryItem.get_daily_fine item)).
Proof.
  intros Hbo Hit Hst Hb Hu Hdue Hlate Hn.
  destruct (return_item_succeeds now1 now2 _ _ _ Hbo Hit Hst) as (users' & Hrun & Hus).
  destruct (Hus _ _ Hb Hu) as (l & _ & ->).
  eexists _, _. split; [exact Hrun|]. simpl. rewrite lookup_insert_eq.
  split; [done|]. unfold late_fee. rewrite Hdue.
  rewrite (proj2 (Z.gtb_lt now1 due)) by done. simpl.
  by rewrite (days_floor _ _ Hn).
Qed.

(** C4. When a checked-out item whose borrower resolves to a user is
    returned at a time strictly after its due date, the borrower's balance
    grows by the number of whole days past the due date times the daily fine
    of the item's kind (0.50 for a book, 1.00 for a DVD, 0.25 for a
    magazine); a book checked out and returned 25 days later adds 2.00. *)
Theorem return_item_late_fee :
  (forall now1 now2 item_id db item borrower user due n,
     reachable db ->
     items db !! item_id = Some item ->
     LibraryItem.status item = CHECKED_OUT ->
     LibraryItem.checked_out_to item = Some borrower ->
     users db !! borrower = Some user ->
     LibraryItem.due_date item = Some due ->
     due < now1 ->
     Timedelta.of_days n <= now2 - due < Timedelta.of_days (n + 1) ->
     exists db' user',
       return_item now1 now2 item_id db = Ok db' /\
       users db' !! borrower = Some user' /\
       LibraryUser.fines user' =
         Float.add (LibraryUser.fines user)
           (Float.mul (Float.of_int n)
              match LibraryItem.kind item with
              | Book _ _ _ _ _ => Float.half
              | DVD _ _ _ => Float.one
              | Magazine _ _ _ => Float.quarter
              end)) /\
  (forall now user_id item_id db user item db1,
     reachable db ->
     users db !! user_id = Some user ->
     items db !! item_id = Some item ->
     (exists author isbn publisher year edition,
        LibraryItem.kind item = Book author isbn publisher year edition) ->
     check_out_item now user_id item_id db = Ok db1 ->
     exists db2 user2,
       return_item (now + Timedelta.of_days 25) (now + Timedelta.of_days 25)
         item_id db1 = Ok db2 /\
       users db2 !! user_id = Some user2 /\
       LibraryUser.fines user2 = Float.add (LibraryUser.fines user) (Float.of_int 2)).
Proof.
  split.
  - intros now1 now2 item_id db item borrower user due n
      (_ & _ & Hbo)%reachable_well_formed Hit Hst Hb Hu Hdue Hlate Hn.
    by apply (return_item_fine now1 now2 item_id db item borrower user due n).
  - intros now user_id item_id db user item db1 Hre Hu Hit
      (author & isbn & publisher & year & edition & Hk) Hco.
    assert (reachable db1) as (_ & _ & Hbo)%reachable_well_formed.
    { by apply (reachable_step (CheckOut now user_id item_id) db db1). }
    apply reachable_well_formed in Hre as ([Hids _] & _ & _).
    apply check_out_item_Ok in Hco as (user0 & item0 & Hu0 & Hit0 & _ & ->).
    rewrite Hu in Hu0. injection Hu0 as <-.
    rewrite Hit in Hit0. injection Hit0 as <-.
    destruct (return_item_fine (now + Timedelta.of_days 25) (now + Timedelta.of_days 25)
                item_id _ _ (LibraryUser.id user)
                (LibraryUser.set_borrowed_items
                   (LibraryUser.borrowed_items user ++ [LibraryItem.id item]) user)
                (now + LibraryItem.get_checkout_duration item) 4 Hbo
                (lookup_insert_eq _ _ _) eq_refl eq_refl)
      as (db2 & user2 & Hrun & Hu2 & Hf).
    + simpl. rewrite (Hids _ _ Hu). apply lookup_insert_eq.
    + done.
    + unfold LibraryItem.get_checkout_duration, Timedelta.of_days,
        Timedelta.microseconds_per_day. rewrite Hk. lia.
    + unfold LibraryItem.get_checkout_duration, Timedelta.of_days,
        Timedelta.microseconds_per_day. rewrite Hk. lia.
    + rewrite (Hids _ _ Hu) in *.
      exists db2, user2. split; [exact Hrun|]. split; [exact Hu2|].
      rewrite Hf. unfold LibraryItem.get_daily_fine; simpl. by rewrite Hk.
Qed.

Lemma return_item_late_fee_witness :
  (exists db' user',
     return_item (25 * Example.day) (25 * Example.day) "X" Example.queued = Ok db' /\
     users db' !! "A" = Some user' /\
     LibraryUser.fines user' = Example.two) /\
  (exists db2 user2,
     return_item (0 + Timedelta.of_days 25) (0 + Timedelta.of_days 25) "X" Example.lent
       = Ok db2 /\
     users db2 !! "A" = Some user2 /\
     LibraryUser.fines user2 = Example.two).
Proof.
  destruct return_item_late_fee as [Hfee Hbook]. split.
  - destruct (Hfee (25 * Example.day) (25 * Example.day) "X" Example.queued
                (LibraryItem.set_reserved_by ["B"] Example.book_lent) "A"
                (LibraryUser.set_borrowed_items ["X"] Example.ann)
                (21 * Example.day) 4
                reachable_queued eq_refl eq_refl eq_refl eq_refl eq_refl)
      as (db' & user' & Hrun & Hu & Hf).
    + reflexivity.
    + unfold Example.day, Timedelta.of_days, Timedelta.microseconds_per_day. lia.
    + exists db', user'. repeat split; assumption.
  - destruct (Hbook 0 "A" "X" Example.stocked Example.ann Example.book Example.lent
                reachable_stocked eq_refl eq_refl) as (db2 & user2 & Hrun & Hu & Hf).
    + by eexists _, _, _, _, _.
    + apply example_lent.
    + exists db2, user2. repeat split; assumption.
Defined.

(** ** The status invariant *)

(** C3. In every reachable state the status of an item is CHECKED_OUT if
    and only if its [checked_out_to] and its [due_date] are both non-null,
    and each of the six operations preserves this ([add_item] for an item
    that has the property itself, as every newly constructed item has). *)
Theorem checked_out_iff_borrower_and_due_date :
  (forall db k i,
     reachable db -> items db !! k = Some i ->
     (LibraryItem.status i = CHECKED_OUT <->
      is_Some (LibraryItem.checked_out_to i) /\ is_Some (LibraryItem.due_date i))) /\
  (forall c db db',
     status_inv db ->
     (forall item, c = AddItem item -> item_status_ok item) ->
     run c db = Ok db' ->
     status_inv db') /\
  (forall uuid title location cost kind,
     item_status_ok (LibraryItem.init uuid title location cost kind)).
Proof.
  split; [|split].
  - intros db k i (_ & Hst & _)%reachable_well_formed Hk. by apply (Hst k).
  - apply status_inv_run.
  - intros. by apply newly_built_status_ok.
Qed.

Lemma checked_out_iff_borrower_and_due_date_witness :
  (LibraryItem.status Example.book_lent = CHECKED_OUT <->
   is_Some (LibraryItem.checked_out_to Example.book_lent) /\
   is_Some (LibraryItem.due_date Example.book_lent)) /\
  status_inv Example.lent.
Proof.
  destruct checked_out_iff_borrower_and_due_date as (Hreach & Hstep & Hnew). split.
  - exact (Hreach Example.lent "X" Example.book_lent reachable_lent eq_refl).
  - apply (Hstep (CheckOut 0 "A" "X") Example.stocked Example.lent).
    + intros k i Hk. exact (Hreach Example.stocked k i reachable_stocked Hk).
    + intros item Hc. discriminate Hc.
    + exact example_lent.
Defined.

(** ** Failures *)

Lemma last_char_app (s t : string) : t <> "" -> last_char (s +:+ t) = last_char t.
Proof.
  intros Ht. induction s as [|c s IH]; [done|].
  simpl. destruct (s +:+ t) eqn:E; [|done].
  destruct s; simpl in E; [done|discriminate E].
Qed.

Lemma not_found_message_differs (item_id title : string) :
  "Item " +:+ item_id +:+ " not found" <> "Item " +:+ title +:+ " is not checked out" /\
  "Item " +:+ item_id +:+ " not found" <> "Payment amount exceeds outstanding fines" /\
  "Item " +:+ item_id +:+ " not found" <> "User has already reserved this item".
Proof.
  split; [|split; intros H; simpl in H; discriminate H].
  intros H%(f_equal last_char).
  rewrite (last_char_app "Item " (item_id +:+ " not found")),
    (last_char_app item_id " not found"),
    (last_char_app "Item " (title +:+ " is not checked out")),
    (last_char_app title " is not checked out") in H; [discriminate H|..].
  - done.
  - by destruct title.
  - done.
  - by destruct item_id.
Qed.

(** C9 does not hold as specified: the failure of returning an item that
    is not in the store and the failure of returning an item that is not
    checked out are raised with the same exception class, so the class does
    not tell an item-not-found failure from an invalid operation. *)
Lemma item_not_found_same_class_as_invalid_operation :
  ~ (forall db item_id item_id' item e e',
       items db !! item_id = None ->
       items db !! item_id' = Some item ->
       LibraryItem.status item <> CHECKED_OUT ->
       return_item 0 0 item_id db = Raise e ->
       return_item 0 0 item_id' db = Raise e' ->
       exn_cls e <> exn_cls e').
Proof.
  intros H.
  apply (H Example.stocked "Y" "X" Example.book
           (Exn LibraryException "Item Y not found")
           (Exn LibraryException
              "Item Types and Programming Languages is not checked out"));
    done.
Qed.

(** C9, amended. In a reachable state a failing operation raises an
    exception of one of three classes: [UserNotFoundException],
    [ItemNotAvailableException] or their base class [LibraryException],
    all caught by [except LibraryException].
    An item that is not found is reported with [LibraryException], the class
    that also reports the return of an item that is not checked out, an
    over-payment and a duplicate reservation; only the message text tells
    the item-not-found failure from these. *)
Theorem failure_classes :
  (forall c db e,
     reachable db -> run c db = Raise e ->
     (exn_cls e = UserNotFoundException \/
      exn_cls e = ItemNotAvailableException \/
      exn_cls e = LibraryException) /\
     subclass_of (exn_cls e) LibraryException = true) /\
  (forall now1 now2 user_id item_id db,
     is_Some (users db !! user_id) ->
     items db !! item_id = None ->
     let not_found := Raise (Exn LibraryException ("Item " +:+ item_id +:+ " not found")) in
     check_out_item now1 user_id item_id db = not_found /\
     return_item now1 now2 item_id db = not_found /\
     reserve_item user_id item_id db = not_found) /\
  (forall now1 now2 item_id db item,
     items db !! item_id = Some item ->
     LibraryItem.status item <> CHECKED_OUT ->
     return_item now1 now2 item_id db =
       Raise (Exn LibraryException
                ("Item " +:+ LibraryItem.title item +:+ " is not checked out"))) /\
  (forall user_id amount db user,
     users db !! user_id = Some user ->
     Float.gtb amount (LibraryUser.fines user) = true ->
     pay_fines user_id amount db =
       Raise (Exn LibraryException "Payment amount exceeds outstanding fines")) /\
  (forall user_id item_id db user item,
     users db !! user_id = Some user ->
     items db !! item_id = Some item ->
     user_id ∈ LibraryItem.reserved_by item ->
     reserve_item user_id item_id db =
       Raise (Exn LibraryException "User has already reserved this item")) /\
  (forall item_id title,
     "Item " +:+ item_id +:+ " not found" <> "Item " +:+ title +:+ " is not checked out" /\
     "Item " +:+ item_id +:+ " not found" <> "Payment amount exceeds outstanding fines" /\
     "Item " +:+ item_id +:+ " not found" <> "User has already reserved this item").
Proof.
  split; [|split; [|split; [|split; [|split]]]].
  - intros c db e (_ & _ & Hbo)%reachable_well_formed Hrun.
    assert (exn_cls e = UserNotFoundException \/
            exn_cls e = ItemNotAvailableException \/
            exn_cls e = LibraryException) as Hcls;
      [|split; [done|]; by (destruct Hcls as [Hc|[Hc|Hc]]; rewrite Hc)].
    destruct c; simpl in Hrun; try done.
    + unfold check_out_item in Hrun.
      destruct (users db !! user_id); [|injection Hrun as <-; by left].
      destruct (items db !! item_id); [|injection Hrun as <-; by right; right].
      destruct (negb _); [|done]. injection Hrun as <-. by right; left.
    + destruct (items db !! item_id) as [item|] eqn:Hit.
      * destruct (decide (LibraryItem.status item = CHECKED_OUT)) as [Hst|Hst].
        -- destruct (return_item_succeeds now1 now2 _ _ _ Hbo Hit Hst) as (? & Hok & _).
           congruence.
        -- unfold return_item in Hrun.
           rewrite Hit, bool_decide_eq_false_2 in Hrun by done.
           injection Hrun as <-. by right; right.
      * unfold return_item in Hrun. rewrite Hit in Hrun.
        injection Hrun as <-. by right; right.
    + unfold reserve_item in Hrun.
      destruct (users db !! user_id); [|injection Hrun as <-; by left].
      destruct (items db !! item_id); [|injection Hrun as <-; by right; right].
      case_bool_decide; [|done]. injection Hrun as <-. by right; right.
    + unfold pay_fines in Hrun.
      destruct (users db !! user_id); [|injection Hrun as <-; by left].
      destruct (Float.gtb _ _); [|done]. injection Hrun as <-. by right; right.
  - intros now1 now2 user_id item_id db [user Hu] Hit. simpl.
    unfold check_out_item, return_item, reserve_item. by rewrite Hu, Hit.
  - intros now1 now2 item_id db item Hit Hst.
    unfold return_item. by rewrite Hit, bool_decide_eq_false_2.
  - intros user_id amount db user Hu Hgt. unfold pay_fines. by rewrite Hu, Hgt.
  - intros user_id item_id db user item Hu Hit Hin.
    unfold reserve_item. by rewrite Hu, Hit, bool_decide_eq_true_2.
  - apply not_found_message_differs.
Qed.

Lemma failure_classes_witness :
  return_item 0 0 "Y" Example.stocked =
    Raise (Exn LibraryException "Item Y not found") /\
  return_item 0 0 "X" Example.stocked =
    Raise (Exn LibraryException
             "Item Types and Programming Languages is not checked out") /\
  (forall e,
     check_out_item 0 "B" "X" Example.lent = Raise e ->
     exn_cls e = UserNotFoundException \/
     exn_cls e = ItemNotAvailableException \/
     exn_cls e = LibraryException).
Proof.
  destruct failure_classes as (Hcls & Hnf & Hnc & _).
  split; [|split].
  - destruct (Hnf 0 0 "A" "Y" Example.stocked) as (_ & H & _).
    + exists Example.ann. reflexivity.
    + reflexivity.
    + exact H.
  - apply (Hnc 0 0 "X" Example.stocked Example.book eq_refl). discriminate.
  - intros e He.
    exact (proj1 (Hcls (CheckOut 0 "B" "X") Example.lent e reachable_lent He)).
Defined.

(** ** The mirror of references *)

Lemma list_remove_sub (x y : string) (l l' : list string) :
  list_remove x l = Some l' -> y ∈ l' -> y ∈ l.
Proof.
  revert l'. induction l as [|z l IH]; simpl; intros l' Hrm Hin; [done|].
  destruct (decide (z = x)) as [->|Hzx].
  - injection Hrm as <-. apply elem_of_cons. by right.
  - destruct (list_remove x l) as [l''|] eqn:Hl; [|done].
    injection Hrm as <-. apply elem_of_cons in Hin as [->|Hin].
    + apply elem_of_cons. by left.
    + apply elem_of_cons. right. by apply (IH l'').
Qed.

Lemma list_remove_NoDup (x : string) (l l' : list string) :
  NoDup l -> list_remove x l = Some l' -> NoDup l' /\ (x ∉ l').
Proof.
  revert l'. induction l as [|z l IH]; simpl; intros l' Hnd Hrm; [done|].
  apply NoDup_cons in Hnd as [Hz Hnd].
  destruct (decide (z = x)) as [->|Hzx].
  - injection Hrm as <-. done.
  - destruct (list_remove x l) as [l''|] eqn:Hl; [|done].
    injection Hrm as <-. destruct (IH _ Hnd eq_refl) as [Hnd'' Hx]. split.
    + apply NoDup_cons. split; [|done].
      intros Hin. apply Hz. by apply (list_remove_sub x z l l'').
    + intros [->|Hin]%elem_of_cons; done.
Qed.

Lemma coherent_init : coherent (mk ∅ ∅).
Proof. split; intros k x; simpl; by rewrite lookup_empty. Qed.

Lemma coherent_run c db db' :
  ids_ok db -> borrowed_mirror db -> coherent db ->
  admissible c db -> run c db = Ok db' -> coherent db'.
Proof.
  intros [Hu Hi] Hbm [Hcu Hci] Hadm Hrun. destruct c; simpl in Hrun, Hadm.
  - injection Hrun as <-. split; simpl.
    + intros k u Hk. insert_cases Hk.
      * split; [apply NoDup_nil_2|]. by intros x [?%elem_of_nil|?%elem_of_nil].
      * by apply (Hcu k).
    + intros k i Hk. destruct (Hci _ _ Hk) as (Hco & Hnd & Hq).
      split; [done|]. split; [done|].
      intros q Hin. apply lookup_insert_is_Some'. right. by apply Hq.
  - injection Hrun as <-. destruct Hadm as [_ Hnew]. split; simpl.
    + intros k u Hk. destruct (Hcu _ _ Hk) as [Hnd Hx]. split; [done|].
      intros x Hin. apply lookup_insert_is_Some'. right. by apply Hx.
    + intros k i Hk. insert_cases Hk; [|by apply (Hci k)].
      rewrite Hnew; simpl. split; [by intros [? ?]|].
      split; [apply NoDup_nil_2|]. by intros q ?%elem_of_nil.
  - apply check_out_item_Ok in Hrun as (user & item & Hus & Hit & Hst & ->).
    split; simpl.
    + intros k u Hk. insert_cases Hk; simpl.
      * destruct (Hcu _ _ Hus) as [Hnd Hx]. split.
        -- apply NoDup_app. split; [done|]. split; [|apply NoDup_singleton].
           intros x Hin ->%list_elem_of_singleton.
           apply (Hbm _ _ _ _ Hus Hit) in Hin.
           destruct (Hci _ _ Hit) as (Hco & _). rewrite Hco in Hst; [done|by eexists].
        -- intros x Hin. apply lookup_insert_is_Some'.
           destruct Hin as [[Hin| ->%list_elem_of_singleton]%elem_of_app|Hin].
           ++ right. apply Hx. by left.
           ++ left. symmetry. by apply Hi.
           ++ right. apply Hx. by right.
      * destruct (Hcu _ _ Hk) as [Hnd Hx]. split; [done|].
        intros x Hin. apply lookup_insert_is_Some'. right. by apply Hx.
    + intros k i Hk.
      assert (forall q, is_Some (users db !! q) ->
                is_Some (<[user_id := LibraryUser.set_borrowed_items
                            (LibraryUser.borrowed_items user ++ [LibraryItem.id item])
                            user]> (users db) !! q)) as Hmono.
      { intros q Hq. apply lookup_insert_is_Some'. by right. }
      insert_cases Hk; simpl.
      * destruct (Hci _ _ Hit) as (_ & Hnd & Hq). split; [done|]. split; [done|].
        intros q Hin. by apply Hmono, Hq.
      * destruct (Hci _ _ Hk) as (Hco & Hnd & Hq). split; [done|]. split; [done|].
        intros q Hin. by apply Hmono, Hq.
  - apply return_item_Ok in Hrun as (item & users' & Hit & Hst & -> & Hus).
    assert (forall q, is_Some (users db !! q) -> is_Some (users' !! q)) as Hmono.
    { destruct Hus as [[-> _]|(b & user & l & _ & _ & _ & ->)]; [done|].
      intros q Hq. apply lookup_insert_is_Some'. by right. }
    split; simpl.
    + intros k u Hk.
      assert (exists u0, users db !! k = Some u0 /\
                (NoDup (LibraryUser.borrowed_items u0) ->
                 NoDup (LibraryUser.borrowed_items u)) /\
                (forall x,
                   x ∈ LibraryUser.borrowed_items u \/ x ∈ LibraryUser.reserved_items u ->
                   x ∈ LibraryUser.borrowed_items u0 \/ x ∈ LibraryUser.reserved_items u0))
        as (u0 & Hk0 & Hnd0 & Hsub).
      { destruct Hus as [[-> _]|(b & user & l & _ & Hb & Hl & ->)]; [by exists u|].
        insert_cases Hk; [|by exists u].
        exists user. split; [done|].
        rewrite late_fee_borrowed_items, late_fee_reserved_items; simpl. split.
        - intros Hnd. by apply (list_remove_NoDup _ _ _ Hnd Hl).
        - intros x [Hin|Hin]; [left|by right].
          by apply (list_remove_sub _ _ _ _ Hl). }
      destruct (Hcu _ _ Hk0) as [Hnd Hx]. split; [by apply Hnd0|].
      intros x Hin. apply lookup_insert_is_Some'. right. by apply Hx, Hsub.
    + intros k i Hk. insert_cases Hk.
      * rewrite returned_item_checked_out_to. split; [by intros [? ?]|].
        destruct (Hci _ _ Hit) as (_ & Hnd & Hq).
        pose proof (returned_item_queue item) as Hqueue.
        destruct (LibraryItem.reserved_by item) as [|front rest];
          destruct Hqueue as [_ ->].
        -- split; [apply NoDup_nil_2|]. by intros q ?%elem_of_nil.
        -- apply NoDup_cons in Hnd as [_ Hnd]. split; [done|].
           intros q Hin. apply Hmono, Hq, elem_of_cons. by right.
      * destruct (Hci _ _ Hk) as (Hco & Hnd & Hq). split; [done|]. split; [done|].
        intros q Hin. by apply Hmono, Hq.
  - apply reserve_item_Ok in Hrun as (user & item & Hus & Hit & Hnin & ->).
    split; simpl.
    + intros k u Hk. insert_cases Hk; simpl.
      * destruct (Hcu _ _ Hus) as [Hnd Hx]. split; [done|].
        intros x Hin. apply lookup_insert_is_Some'.
        destruct Hin as [Hin|[Hin| ->%list_elem_of_singleton]%elem_of_app].
        -- right. apply Hx. by left.
        -- right. apply Hx. by right.
        -- by left.
      * destruct (Hcu _ _ Hk) as [Hnd Hx]. split; [done|].
        intros x Hin. apply lookup_insert_is_Some'. right. by apply Hx.
    + intros k i Hk. insert_cases Hk; simpl.
      * destruct (Hci _ _ Hit) as (Hco & Hnd & Hq). split; [done|]. split.
        -- apply NoDup_app. split; [done|]. split; [|apply NoDup_singleton].
           by intros x Hin ->%list_elem_of_singleton.
        -- intros q [Hin| ->%list_elem_of_singleton]%elem_of_app;
             apply lookup_insert_is_Some'; [right; by apply Hq|by left].
      * destruct (Hci _ _ Hk) as (Hco & Hnd & Hq). split; [done|]. split; [done|].
        intros q Hin. apply lookup_insert_is_Some'. right. by apply Hq.
  - apply pay_fines_Ok in Hrun as (user & Hus & _ & ->).
    split; simpl.
    + intros k u Hk. insert_cases Hk; [simpl; by apply (Hcu user_id)|by apply (Hcu k)].
    + intros k i Hk. destruct (Hci _ _ Hk) as (Hco & Hnd & Hq).
      split; [done|]. split; [done|].
      intros q Hin. apply lookup_insert_is_Some'. right. by apply Hq.
Qed.

(** The borrowed half reads only the ids, the lists of borrowed items and
    the borrowers. *)
Lemma borrowed_mirror_ext db db' :
  (forall k u',
     users db' !! k = Some u' ->
     exists u, users db !! k = Some u /\
       LibraryUser.id u = LibraryUser.id u' /\
       LibraryUser.borrowed_items u = LibraryUser.borrowed_items u') ->
  (forall k i',
     items db' !! k = Some i' ->
     exists i, items db !! k = Some i /\
       LibraryItem.id i = LibraryItem.id i' /\
       LibraryItem.checked_out_to i = LibraryItem.checked_out_to i') ->
  borrowed_mirror db -> borrowed_mirror db'.
Proof.
  intros Hus Hits Hm uk u' ik i' Hu Hi.
  destruct (Hus _ _ Hu) as (u & Hu0 & <- & <-).
  destruct (Hits _ _ Hi) as (i & Hi0 & <- & <-).
  by apply (Hm uk u ik i).
Qed.

(** The reserved half reads only the ids, the lists of reserved items and
    the queues. *)
Lemma reserved_mirror_ext db db' :
  (forall k u',
     users db' !! k = Some u' ->
     exists u, users db !! k = Some u /\
       LibraryUser.id u = LibraryUser.id u' /\
       LibraryUser.reserved_items u = LibraryUser.reserved_items u') ->
  (forall k i',
     items db' !! k = Some i' ->
     exists i, items db !! k = Some i /\
       LibraryItem.id i = LibraryItem.id i' /\
       LibraryItem.reserved_by i = LibraryItem.reserved_by i') ->
  reserved_mirror db -> reserved_mirror db'.
Proof.
  intros Hus Hits Hm uk u' ik i' Hu Hi.
  destruct (Hus _ _ Hu) as (u & Hu0 & <- & <-).
  destruct (Hits _ _ Hi) as (i & Hi0 & <- & <-).
  by apply (Hm uk u ik i).
Qed.

Lemma borrowed_mirror_run c db db' :
  well_formed db -> coherent db -> borrowed_mirror db ->
  admissible c db -> run c db = Ok db' -> borrowed_mirror db'.
Proof.
  intros ([Hu Hi] & _ & Hbo) [Hcu Hci] Hm Hadm Hrun.
  destruct c; simpl in Hrun, Hadm.
  - injection Hrun as <-. intros uk u ik i Huk Hik; simpl in *.
    insert_cases Huk; [|by apply (Hm uk u ik i)].
    simpl. split; [by intros ?%elem_of_nil|].
    intros Hco. destruct (Hbo _ _ _ Hik Hco) as (u & Hub & _). congruence.
  - injection Hrun as <-. destruct Hadm as [Hfresh Hnew].
    intros uk u ik i Huk Hik; simpl in *.
    insert_cases Hik; [|by apply (Hm uk u ik i)].
    assert (LibraryItem.checked_out_to item = None) as -> by (by rewrite Hnew).
    split; [|done].
    intros Hin. destruct (Hcu _ _ Huk) as [_ Hx].
    destruct (Hx (LibraryItem.id item)) as [? Hsome]; [by left|]. congruence.
  - apply check_out_item_Ok in Hrun as (user & item & Hus & Hit & Hst & ->).
    assert (LibraryItem.checked_out_to item = None) as Hnone.
    { destruct (Hci _ _ Hit) as (Hco & _).
      destruct (LibraryItem.checked_out_to item) eqn:E; [|done].
      rewrite Hco in Hst; [done|by eexists]. }
    intros uk u ik i Huk Hik. insert_cases Huk; insert_cases Hik; simpl.
    + split; [done|]. intros _. apply elem_of_app. right. by apply list_elem_of_singleton.
    + rewrite <- (Hm _ _ _ _ Hus Hik). split.
      * intros [Hin|Heq%list_elem_of_singleton]%elem_of_app; [done|].
        rewrite (Hi _ _ Hik), (Hi _ _ Hit) in Heq. done.
      * intros Hin. apply elem_of_app. by left.
    + split.
      * intros Hin%(Hm _ _ _ _ Huk Hit). congruence.
      * intros [= Heq]. rewrite (Hu _ _ Hus), (Hu _ _ Huk) in Heq. done.
    + by apply (Hm uk u ik i).
  - apply return_item_Ok in Hrun as (item & users' & Hit & Hst & -> & Hus).
    intros uk u ik i Huk Hik; simpl in Huk, Hik.
    destruct Hus as [[-> Hnone]|(b & user & l & Hb & Hub & Hl & ->)].
    + insert_cases Hik; [|by apply (Hm uk u ik i)].
      rewrite returned_item_id, returned_item_checked_out_to. split; [|done].
      intros Hco%(Hm _ _ _ _ Huk Hit). exfalso.
      apply (Hnone _ u Hco). by rewrite (Hu _ _ Huk).
    + destruct (Hcu _ _ Hub) as [Hnd _].
      destruct (list_remove_NoDup _ _ _ Hnd Hl) as [_ Hgone].
      insert_cases Huk; insert_cases Hik;
        rewrite ?returned_item_id, ?returned_item_checked_out_to,
          ?late_fee_borrowed_items, ?late_fee_id; simpl.
      * done.
      * rewrite <- (Hm _ _ _ _ Hub Hik).
        assert (LibraryItem.id i <> LibraryItem.id item) as Hne.
        { rewrite (Hi _ _ Hik), (Hi _ _ Hit). done. }
        split; [apply (list_remove_sub _ _ _ _ Hl)|by apply (list_remove_keeps _ _ _ _ Hl)].
      * split; [|done]. intros Hco%(Hm _ _ _ _ Huk Hit).
        rewrite Hb in Hco. injection Hco as ->. by rewrite (Hu _ _ Huk) in *.
      * by apply (Hm uk u ik i).
  - apply reserve_item_Ok in Hrun as (user & item & Hus & Hit & _ & ->).
    revert Hm. apply borrowed_mirror_ext; simpl.
    + intros k u' Hk. insert_cases Hk; [by exists user|by exists u'].
    + intros k i' Hk. insert_cases Hk; [by exists item|by exists i'].
  - apply pay_fines_Ok in Hrun as (user & Hus & _ & ->).
    revert Hm. apply borrowed_mirror_ext; simpl.
    + intros k u' Hk. insert_cases Hk; [by exists user|by exists u'].
    + intros k i' Hk. by exists i'.
Qed.

(** In every reachable state the lists are coherent and the lists of
    borrowed items mirror the borrowers of the items. *)
Lemma reachable_borrowed_mirror db :
  reachable db -> coherent db /\ borrowed_mirror db.
Proof.
  induction 1 as [|c db db' Hre [Hco Hm] Hadm Hrun].
  - split; [apply coherent_init|].
    intros uk u ik i Hu; simpl in Hu. by rewrite lookup_empty in Hu.
  - pose proof (reachable_well_formed _ Hre) as Hwf. split.
    + eapply coherent_run; [apply Hwf|done..].
    + by eapply borrowed_mirror_run.
Qed.

(** The reservations stay mirrored through every call that takes nobody
    off a queue. *)
Lemma reserved_mirror_run c db db' :
  well_formed db -> coherent db -> reserved_mirror db ->
  admissible c db -> leaves_queues c db -> run c db = Ok db' ->
  reserved_mirror db'.
Proof.
  intros ([Hu Hi] & _ & _) [Hcu Hci] Hm Hadm Hquiet Hrun.
  destruct c; simpl in Hrun, Hadm, Hquiet.
  - injection Hrun as <-. intros uk u ik i Huk Hik; simpl in *.
    insert_cases Huk; [|by apply (Hm uk u ik i)].
    simpl. split; [by intros ?%elem_of_nil|].
    intros Hin. destruct (Hci _ _ Hik) as (_ & _ & Hq).
    destruct (Hq _ Hin) as [? Hsome]. congruence.
  - injection Hrun as <-. destruct Hadm as [Hfresh Hnew].
    intros uk u ik i Huk Hik; simpl in *.
    insert_cases Hik; [|by apply (Hm uk u ik i)].
    assert (LibraryItem.reserved_by item = []) as -> by (by rewrite Hnew).
    split; [|by intros ?%elem_of_nil].
    intros Hin. destruct (Hcu _ _ Huk) as [_ Hx].
    destruct (Hx (LibraryItem.id item)) as [? Hsome]; [by right|]. congruence.
  - apply check_out_item_Ok in Hrun as (user & item & Hus & Hit & _ & ->).
    revert Hm. apply reserved_mirror_ext; simpl.
    + intros k u' Hk. insert_cases Hk; [by exists user|by exists u'].
    + intros k i' Hk. insert_cases Hk; [by exists item|by exists i'].
  - apply return_item_Ok in Hrun as (item & users' & Hit & _ & -> & Hus).
    revert Hm. apply reserved_mirror_ext; simpl.
    + intros k u' Hk.
      destruct Hus as [[-> _]|(b & user & l & _ & Hub & _ & ->)]; [by exists u'|].
      insert_cases Hk; [|by exists u'].
      exists user. by rewrite late_fee_id, late_fee_reserved_items.
    + intros k i' Hk. insert_cases Hk; [|by exists i'].
      exists item. rewrite returned_item_id. split; [done|]. split; [done|].
      pose proof (returned_item_queue item) as Hq.
      rewrite (Hquiet _ Hit) in Hq |- *. by destruct Hq as [_ ->].
  - apply reserve_item_Ok in Hrun as (user & item & Hus & Hit & _ & ->).
    intros uk u ik i Huk Hik. insert_cases Huk; insert_cases Hik; simpl.
    + rewrite (Hu _ _ Hus), (Hi _ _ Hit).
      split; intros _; apply elem_of_app; right; by apply list_elem_of_singleton.
    + rewrite <- (Hm _ _ _ _ Hus Hik). split.
      * intros [Hin|Heq%list_elem_of_singleton]%elem_of_app; [done|].
        rewrite (Hi _ _ Hik) in Heq. done.
      * intros Hin. apply elem_of_app. by left.
    + rewrite (Hm _ _ _ _ Huk Hit). split.
      * intros Hin. apply elem_of_app. by left.
      * intros [Hin|Heq%list_elem_of_singleton]%elem_of_app; [done|].
        rewrite (Hu _ _ Huk) in Heq. done.
    + by apply (Hm uk u ik i).
  - apply pay_fines_Ok in Hrun as (user & Hus & _ & ->).
    revert Hm. apply reserved_mirror_ext; simpl.
    + intros k u' Hk. insert_cases Hk; [by exists user|by exists u'].
    + intros k i' Hk. by exists i'.
Qed.

(** Returning an item with a reservation leaves the item in the list of
    the user who headed the queue. *)
Lemma return_item_stale_reservation now1 now2 item_id db db' item front rest :
  ids_ok db -> coherent db -> reserved_mirror db ->
  items db !! item_id = Some item ->
  LibraryItem.reserved_by item = front :: rest ->
  return_item now1 now2 item_id db = Ok db' ->
  exists user' item',
    users db' !! front = Some user' /\ items db' !! item_id = Some item' /\
    LibraryItem.id item' ∈ LibraryUser.reserved_items user' /\
    (LibraryUser.id user' ∉ LibraryItem.reserved_by item').
Proof.
  intros [Hu Hi] [Hcu Hci] Hm Hit Hqueue Hrun.
  destruct (Hci _ _ Hit) as (_ & Hnd & Hq).
  rewrite Hqueue in Hnd, Hq. apply NoDup_cons in Hnd as [Hfront _].
  destruct (Hq front) as [user Huser]; [apply elem_of_cons; by left|].
  assert (LibraryItem.id item ∈ LibraryUser.reserved_items user) as Hin.
  { apply (Hm _ _ _ _ Huser Hit). rewrite (Hu _ _ Huser), Hqueue.
    apply elem_of_cons. by left. }
  apply return_item_Ok in Hrun as (item0 & users' & Hit0 & _ & -> & Hus).
  rewrite Hit in Hit0. injection Hit0 as <-.
  assert (exists user', users' !! front = Some user' /\
            LibraryUser.id user' = front /\
            LibraryUser.reserved_items user' = LibraryUser.reserved_items user)
    as (user' & Huser' & Hid & Hres).
  { destruct Hus as [[-> _]|(b & borrower & l & _ & Hub & _ & ->)].
    - exists user. by rewrite (Hu _ _ Huser).
    - destruct (decide (b = front)) as [->|Hne].
      + rewrite lookup_insert_eq. eexists. split; [done|].
        rewrite late_fee_id, late_fee_reserved_items; simpl.
        rewrite Huser in Hub. injection Hub as <-. by rewrite (Hu _ _ Huser).
      + rewrite lookup_insert_ne by done. exists user. by rewrite (Hu _ _ Huser). }
  exists user', (returned_item item). simpl. rewrite lookup_insert_eq.
  split; [done|]. split; [done|].
  rewrite returned_item_id, Hres, Hid. split; [done|].
  pose proof (returned_item_queue item) as Hrq. rewrite Hqueue in Hrq.
  by destruct Hrq as [_ ->].
Qed.

(** The lookups of a map built by insertions into the empty map. *)
Ltac lookup_cases H :=
  simpl in H;
  repeat (apply lookup_insert_Some in H as [[<- <-]|[? H]]);
  try (by rewrite lookup_empty in H).

Lemma mirror_inv_queued : mirror_inv Example.queued.
Proof.
  split; intros uk u ik i Hu Hi; lookup_cases Hu; lookup_cases Hi; simpl.
  all: split; [intros Hin|intros Heq].
  all: try discriminate Heq.
  all: repeat match goal with
         | H : _ ∈ [] |- _ => by apply elem_of_nil in H
         | H : _ ∈ _ :: _ |- _ => apply elem_of_cons in H as [H|H]; try discriminate H
         end.
  all: try (apply elem_of_cons; by left).
  all: done.
Qed.

(** C2. [return_item] does not preserve the mirror. In every reachable
    state the lists of borrowed items mirror the borrowers, and every call
    that takes nobody off a queue keeps both halves of the mirror. The
    return of a checked-out item with a reservation succeeds and breaks the
    mirror: it pops the queue of the item and leaves the item in the
    [reserved_items] of the user it popped. So it is in the session of the
    example, when Ann returns the book Bob has reserved. *)
Theorem return_item_breaks_mirror :
  (forall db, reachable db -> borrowed_mirror db) /\
  (forall c db db',
     reachable db -> mirror_inv db ->
     admissible c db -> leaves_queues c db -> run c db = Ok db' ->
     mirror_inv db') /\
  (forall now1 now2 item_id db item front rest,
     reachable db -> mirror_inv db ->
     items db !! item_id = Some item ->
     LibraryItem.status item = CHECKED_OUT ->
     LibraryItem.reserved_by item = front :: rest ->
     exists db' user' item',
       return_item now1 now2 item_id db = Ok db' /\
       users db' !! front = Some user' /\
       items db' !! item_id = Some item' /\
       LibraryItem.id item' ∈ LibraryUser.reserved_items user' /\
       (LibraryUser.id user' ∉ LibraryItem.reserved_by item') /\
       ~ mirror_inv db') /\
  (reachable Example.queued /\
   mirror_inv Example.queued /\
   return_item (25 * Example.day) (25 * Example.day) "X" Example.queued
     = Ok Example.returned /\
   ~ mirror_inv Example.returned).
Proof.
  split; [|split; [|split]].
  - intros db Hre. by apply reachable_borrowed_mirror.
  - intros c db db' Hre [_ Hrm] Hadm Hquiet Hrun.
    assert (reachable db') as Hre' by (by apply (reachable_step c db db')).
    split; [by apply reachable_borrowed_mirror|].
    apply (reserved_mirror_run c db db'); try done.
    + by apply reachable_well_formed.
    + by apply reachable_borrowed_mirror.
  - intros now1 now2 item_id db item front rest Hre [_ Hrm] Hit Hst Hqueue.
    pose proof (reachable_well_formed _ Hre) as (Hids & _ & Hbo).
    destruct (reachable_borrowed_mirror _ Hre) as [Hco _].
    destruct (return_item_succeeds now1 now2 _ _ _ Hbo Hit Hst) as (users' & Hrun & _).
    destruct (return_item_stale_reservation _ _ _ _ _ _ _ _ Hids Hco Hrm Hit Hqueue Hrun)
      as (user' & item' & Hu' & Hi' & Hin & Hnin).
    eexists _, user', item'. split; [exact Hrun|]. repeat split; try done.
    intros [_ Hrm']. by apply Hnin, (Hrm' _ _ _ _ Hu' Hi').
  - split; [apply reachable_queued|]. split; [apply mirror_inv_queued|].
    split; [apply example_returned|].
    intros [_ H].
    destruct (H "B" _ "X" _ eq_refl eq_refl) as [Hin _]; simpl in Hin.
    eapply not_elem_of_nil, Hin. apply elem_of_cons. by left.
Qed.

Lemma return_item_breaks_mirror_witness :
  exists db' bob book,
    return_item (25 * Example.day) (25 * Example.day) "X" Example.queued = Ok db' /\
    users db' !! "B" = Some bob /\
    items db' !! "X" = Some book /\
    LibraryItem.id book ∈ LibraryUser.reserved_items bob /\
    (LibraryUser.id bob ∉ LibraryItem.reserved_by book).
Proof.
  destruct return_item_breaks_mirror as (_ & _ & Hbreak & _ & Hm & _).
  destruct (Hbreak (25 * Example.day) (25 * Example.day) "X" Example.queued
              (LibraryItem.set_reserved_by ["B"] Example.book_lent) "B" []
              reachable_queued Hm eq_refl eq_refl eq_refl)
    as (db' & bob & book & Hrun & Hu & Hi & Hin & Hnin & _).
  exists db', bob, book. repeat split; assumption.
Defined.

(** ** Saving and loading *)

Lemma as_str_list_aux_strs (l : list string) : as_str_list_aux (JStr <$> l) = Ok l.
Proof.
  induction l as [|s l IH]; [done|].
  rewrite fmap_cons. cbn [as_str_list_aux as_str bind]. by rewrite IH.
Qed.

Lemma load_user_to_dict (u : LibraryUser.t) :
  load_user (JDict (LibraryUser.to_dict u)) = Ok u.
Proof.
  destruct u as [name email phone id role borrowed reserved fines].
  unfold load_user, LibraryUser.to_dict. cbn.
  rewrite !as_str_list_aux_strs. by destruct role.
Qed.

(** Storing the values of a map under their own keys rebuilds the map. *)
Lemma foldl_insert_pairs {V} (key : V -> string) (l : list (string * V))
    (acc : gmap string V) :
  NoDup l.*1 ->
  (forall k v, (k, v) ∈ l -> key v = k) ->
  foldl (fun m v => <[key v := v]> m) acc l.*2 = list_to_map l ∪ acc.
Proof.
  revert acc. induction l as [|[k v] l IH]; intros acc Hnd Hkey.
  - simpl. by rewrite (left_id_L ∅ (∪)).
  - rewrite fmap_cons in Hnd. apply NoDup_cons in Hnd as [Hk Hnd].
    rewrite fmap_cons, list_to_map_cons. simpl.
    rewrite (Hkey k v) by (apply elem_of_cons; by left).
    rewrite IH; [|done|intros k' v' Hin; apply Hkey, elem_of_cons; by right].
    rewrite <- insert_union_l. apply symmetry, insert_union_r.
    by apply not_elem_of_list_to_map_1.
Qed.

Lemma foldl_insert_values {V} (key : V -> string) (m : gmap string V) :
  (forall k v, m !! k = Some v -> key v = k) ->
  foldl (fun acc v => <[key v := v]> acc) ∅ (map_to_list m).*2 = m.
Proof.
  intros Hkey. rewrite foldl_insert_pairs.
  - by rewrite (right_id_L ∅ (∪)), list_to_map_to_list.
  - apply NoDup_fst_map_to_list.
  - intros k v Hin%elem_of_map_to_list. by apply Hkey.
Qed.

Lemma load_users_to_dict (l : list LibraryUser.t) (acc : gmap string LibraryUser.t) :
  load_users ((fun u => JDict (LibraryUser.to_dict u)) <$> l) acc =
  Ok (foldl (fun m u => <[LibraryUser.id u := u]> m) acc l).
Proof.
  revert acc. induction l as [|u l IH]; intros acc; [done|].
  rewrite fmap_cons. cbn [load_users]. rewrite load_user_to_dict.
  cbn [bind]. apply IH.
Qed.

Section roundtrip.
Variable isoformat : datetime -> string.
Variable fromisoformat : string -> option datetime.
Hypothesis fromisoformat_isoformat : forall d, fromisoformat (isoformat d) = Some d.
Hypothesis isoformat_nonempty : forall d, isoformat d <> "".

Lemma load_item_to_dict (bound : bool) (i : LibraryItem.t) :
  load_item fromisoformat bound (JDict (LibraryItem.to_dict isoformat i)) = Ok i.
Proof.
  destruct i as [id title location cost status borrower due queue kind].
  destruct kind; unfold load_item, load_item_new, LibraryItem.to_dict; cbn.
  all: rewrite ?fromisoformat_isoformat; cbn.
  all: rewrite as_str_list_aux_strs.
  all: destruct status, borrower, due; cbn.
  all: rewrite ?bool_decide_eq_false_2, ?fromisoformat_isoformat
         by apply isoformat_nonempty.
  all: done.
Qed.

Lemma load_items_to_dict (l : list LibraryItem.t) (bound : bool)
    (acc : gmap string LibraryItem.t) :
  load_items fromisoformat
    ((fun i => JDict (LibraryItem.to_dict isoformat i)) <$> l) bound acc =
  Ok (foldl (fun m i => <[LibraryItem.id i := i]> m) acc l).
Proof.
  revert bound acc. induction l as [|i l IH]; intros bound acc; [done|].
  rewrite fmap_cons. cbn [load_items]. rewrite load_item_to_dict.
  cbn [bind]. apply IH.
Qed.

(** C8. A database whose objects sit under their own ids is saved and
    loaded back unchanged: a new [LibraryDatabase] that finds the saved
    file holds the same users and items, every attribute included, and
    leaves the file as it is. Each saved record loads back to the object it
    was made from; an item's record carries the name of its class under
    ["type"], null for an absent borrower or due date, and the ISO text of
    a due date that is set. *)
Theorem save_load_roundtrip (db : LibraryDatabase.t) :
  ids_ok db ->
  LibraryDatabase.init isoformat fromisoformat (Some (save_data isoformat db))
    = Ok (db, save_data isoformat db) /\
  (forall k i,
     items db !! k = Some i ->
     load_item fromisoformat false (JDict (LibraryItem.to_dict isoformat i)) = Ok i /\
     Dict.get "type" (LibraryItem.to_dict isoformat i)
       = Some (JStr (LibraryItem.class_name i)) /\
     (LibraryItem.checked_out_to i = None ->
      Dict.get "checked_out_to" (LibraryItem.to_dict isoformat i) = Some JNull) /\
     (LibraryItem.due_date i = None ->
      Dict.get "due_date" (LibraryItem.to_dict isoformat i) = Some JNull) /\
     (forall d,
        LibraryItem.due_date i = Some d ->
        Dict.get "due_date" (LibraryItem.to_dict isoformat i)
          = Some (JStr (isoformat d)))) /\
  (forall k u,
     users db !! k = Some u ->
     load_user (JDict (LibraryUser.to_dict u)) = Ok u).
Proof.
  intros [Hu Hi]. split; [|split].
  - destruct db as [us its]. simpl in Hu, Hi.
    unfold LibraryDatabase.init, load_data, save_data. cbn.
    rewrite load_users_to_dict. cbn [bind].
    rewrite load_items_to_dict. cbn [bind].
    by rewrite (foldl_insert_values LibraryUser.id us Hu),
      (foldl_insert_values LibraryItem.id its Hi).
  - intros k i _. split; [apply load_item_to_dict|].
    destruct i as [id title location cost status borrower due queue kind].
    destruct kind; cbn; (repeat split; [by intros ->|by intros ->|by intros d ->]).
  - intros k u _. apply load_user_to_dict.
Qed.
End roundtrip.

Lemma unstamp_stamp (d : Z) : Example.unstamp (Example.stamp d) = Some d.
Proof.
  unfold Example.unstamp, Example.stamp.
  rewrite DecimalString.NilEmpty.isi. simpl. by rewrite DecimalZ.of_to.
Qed.

Lemma stamp_nonempty (d : Z) : Example.stamp d <> "".
Proof.
  intros H. pose proof (unstamp_stamp d) as Hd. rewrite H in Hd.
  injection Hd as <-. discriminate H.
Qed.

Lemma save_load_roundtrip_witness :
  let db := add_item Example.magazine Example.lent in
  LibraryDatabase.init Example.stamp Example.unstamp
    (Some (save_data Example.stamp db)) = Ok (db, save_data Example.stamp db).
Proof.
  intros db.
  apply (save_load_roundtrip Example.stamp Example.unstamp unstamp_stamp stamp_nonempty db).
  apply reachable_well_formed.
  apply (reachable_step (AddItem Example.magazine) Example.lent);
    [apply reachable_lent|split; reflexivity|reflexivity].
Defined.
